(** * misinfo: a vertically scrolling video feed with engagement metrics

    A shallow embedding of the feed's core: the [Post] component's playback
    handle and source fallback, the [VideoContext] metrics provider, the API
    service's URL processing, and the two [Feed] screens of the repository
    (the TypeScript screen [src/screens/Feed/index.tsx] and the JavaScript
    screen that keeps its metrics in component state).

    Conventions.  JavaScript numbers that the code uses as timestamps, list
    indexes and counters are integers and are modelled as [Z].  A value that
    can be [null] or [undefined] is an [option]; JavaScript truthiness is
    written out ([truthyS], [truthyZ], ...).  [Date.now()] is an input: every
    event carries the clock reading the handler obtains while processing it.
    React state setters with updater functions are applied in call order. *)

From stdpp Require Import gmap strings list fin_maps pretty.
From Stdlib Require Import ZArith Lia.

Local Open Scope Z_scope.

(** ** JavaScript helpers *)

Module Js.

(** Truthiness of a possibly missing string: [null], [undefined] and the
    empty string are falsy. *)
Definition truthyS (o : option string) : bool :=
  match o with
  | Some s => negb (String.eqb s "")
  | None => false
  end.

(** Truthiness of a possibly missing number: [null], [undefined] and [0]. *)
Definition truthyZ (o : option Z) : bool :=
  match o with
  | Some n => negb (n =? 0)
  | None => false
  end.

(** Truthiness of an optional boolean flag. *)
Definition truthyB (o : option bool) : bool := default false o.

(** [a - b] where [b] may be [null]: [null] coerces to [0]. *)
Definition minusNull (a : Z) (b : option Z) : Z := a - default 0 b.

(** [s1.startsWith(s2)] *)
Definition startsWith (s pat : string) : bool := String.prefix pat s.

(** [s.includes(pat)] *)
Definition includes (s pat : string) : bool :=
  match String.index 0 pat s with
  | Some _ => true
  | None => false
  end.

(** [s.replace(pat, rep)] with a string pattern: the first occurrence only. *)
Definition replace (s pat rep : string) : string :=
  match String.index 0 pat s with
  | Some i =>
      String.append (String.substring 0 i s)
        (String.append rep
           (String.substring (i + String.length pat)
              (String.length s - (i + String.length pat)) s))
  | None => s
  end.

End Js.

(** ** [src/types/index.ts] *)

Module Types.

Record PostSource := { name : string; imageuri : option string }.

Record Post := {
  id : Z;
  uri : string;
  caption : option string;
  source : option PostSource;
  likes : option Z;
  facts : option (list string);
  tags : option (list string);
  originalUri : option string;
  streamingUrl : option string;
  fallbackUrl : option string;
  isStreaming : option bool
}.

(** The [VideoRef] interface: what a feed may ask of a mounted post.  The
    promises the three methods return are never awaited by the feed, so a
    method is its effect on the handle. *)
Class VideoRef (H : Type) := {
  play : H → H;
  pause : H → H;
  unload : H → H
}.

(** [AppStateStatus] of react-native. *)
Inductive AppStateStatus := active | background | inactive | unknown | extension.

#[global] Instance AppStateStatus_eq_dec : EqDecision AppStateStatus.
Proof. solve_decision. Defined.

(** An entry of [viewableItems] or [changed].  [key] is the list key, which
    [keyExtractor] sets to [item.id.toString()]; [now] is the reading of
    [Date.now()] taken while the entry is processed. *)
Record ViewToken := {
  key : string;
  isViewable : bool;
  index : Z;
  now : Z
}.

(** The [lastViewedRef] object. *)
Record LastViewed := {
  startTime : option Z;
  contentId : option string
}.

Definition noView : LastViewed := {| startTime := None; contentId := None |}.

End Types.

(** ** The [Post] component: playback handle and source fallback *)

Module Post.
Import Types.

(** The expo-av [Video] instance behind [videoRef], as far as the handle
    drives it. *)
Record Video := { shouldPlay : bool; isLoaded : bool }.

(** How an awaited promise settles. *)
Inductive Settled (A : Type) :=
| Fulfilled (a : A)
| Rejected (e : string).
Arguments Fulfilled {A} a.
Arguments Rejected {A} e.

(** The media player is external.  Whether a call rejects is not decided by
    the component, so it is an input ([fails]); a call that goes through
    has the documented effect. *)
Definition setStatusAsync (fails : option string) (sp : bool) (v : Video)
  : Settled Video :=
  match fails with
  | Some e => Rejected e
  | None => Fulfilled {| shouldPlay := sp; isLoaded := isLoaded v |}
  end.

Definition unloadAsync (fails : option string) (v : Video) : Settled Video :=
  match fails with
  | Some e => Rejected e
  | None => Fulfilled {| shouldPlay := false; isLoaded := false |}
  end.

(** The component state the handle and the error handler read and write.
    [videoRef] is [None] once React has cleared the ref on unmount. *)
Record State := {
  videoRef : option Video;
  videoSource : string;
  hasError : bool;
  isLoading : bool
}.

Definition setVideoRef (v : option Video) (st : State) : State :=
  {| videoRef := v; videoSource := videoSource st;
     hasError := hasError st; isLoading := isLoading st |}.

Definition setIsLoading (b : bool) (st : State) : State :=
  {| videoRef := videoRef st; videoSource := videoSource st;
     hasError := hasError st; isLoading := b |}.

(** [useImperativeHandle]: each method returns the component state after
    the call and how the method's own promise settles. *)
Definition play (fails : option string) (st : State) : State * Settled unit :=
  match videoRef st with
  | None => (st, Fulfilled tt)
  | Some v =>
      match setStatusAsync fails true v with
      | Fulfilled v' => (setVideoRef (Some v') st, Fulfilled tt)
      | Rejected _ => (st, Fulfilled tt)
      end
  end.

Definition pause (fails : option string) (st : State) : State * Settled unit :=
  match videoRef st with
  | None => (st, Fulfilled tt)
  | Some v =>
      match setStatusAsync fails false v with
      | Fulfilled v' => (setVideoRef (Some v') st, Fulfilled tt)
      | Rejected _ => (st, Fulfilled tt)
      end
  end.

Definition unload (fails : option string) (st : State) : State * Settled unit :=
  match videoRef st with
  | None => (st, Fulfilled tt)
  | Some v =>
      match unloadAsync fails v with
      | Fulfilled v' => (setIsLoading true (setVideoRef (Some v') st), Fulfilled tt)
      | Rejected _ => (st, Fulfilled tt)
      end
  end.

(** A mounted post whose player accepts every call, as a [VideoRef]. *)
#[global] Instance State_VideoRef : VideoRef State := {|
  Types.play st := (play None st).1;
  Types.pause st := (pause None st).1;
  Types.unload st := (unload None st).1
|}.

(** State on mount and whenever [data.uri] changes. *)
Definition mount (data : Types.Post) (v : option Video) : State :=
  {| videoRef := v; videoSource := uri data;
     hasError := false; isLoading := true |}.

(** [handleVideoError] *)
Definition handleVideoError (data : Types.Post) (st : State) : State :=
  if Js.truthyB (isStreaming data) && Js.truthyS (fallbackUrl data)
     && negb (hasError st)
  then
    {| videoRef := videoRef st; videoSource := default "" (fallbackUrl data);
       hasError := true; isLoading := true |}
  else if Js.truthyS (originalUri data)
          && negb (bool_decide (originalUri data = Some (videoSource st)))
          && negb (hasError st)
  then
    {| videoRef := videoRef st; videoSource := default "" (originalUri data);
       hasError := true; isLoading := true |}
  else
    {| videoRef := videoRef st; videoSource := videoSource st;
       hasError := true; isLoading := false |}.

(** The sources the player is asked to load when every load fails.  A
    failed load reports one error; the handler either sets a new source
    (and the loading flag), which starts the next load, or gives up, after
    which nothing is loaded any more. *)
Fixpoint retries (fuel : nat) (data : Types.Post) (st : State) : list string * State :=
  match fuel with
  | O => ([], st)
  | S fuel' =>
      let st' := handleVideoError data st in
      if isLoading st'
      then let '(l, fin) := retries fuel' data st' in (videoSource st' :: l, fin)
      else ([], st')
  end.

Definition loadAttempts (fuel : nat) (data : Types.Post) (v : option Video)
  : list string * State :=
  let '(l, fin) := retries fuel data (mount data v) in (uri data :: l, fin).

(** The permanent-error state: the error flag is up and nothing loads. *)
Definition exhausted (st : State) : bool := hasError st && negb (isLoading st).

End Post.

(** ** [src/services/api/index.ts] *)

Module Api.
Import Types.

Definition API_BASE_URL : string := "http://192.168.1.10:3000/api".

(** *** [processVideoUrls] over JavaScript objects

    The function takes [any].  Objects live in a store and are passed by
    reference, so that a write through one reference is seen through every
    other: a statement about mutation needs that sharing. *)

Inductive value :=
| VUndefined
| VNull
| VBool (b : bool)
| VNum (n : Z)
| VStr (s : string)
| VObj (l : positive).

#[global] Instance value_eq_dec : EqDecision value.
Proof. solve_decision. Defined.

(** An object is its own enumerable properties; the store maps references to
    objects. *)
Abbreviation store := (gmap positive (gmap string value)).

Definition truthy (v : value) : bool :=
  match v with
  | VUndefined | VNull => false
  | VBool b => b
  | VNum n => negb (n =? 0)
  | VStr s => negb (String.eqb s "")
  | VObj _ => true
  end.

(** [a || b] *)
Definition jsOr (a b : value) : value := if truthy a then a else b.

(** [v.k]: a property read never fails on the values that reach it here (the
    function has returned before reading a property of [null]/[undefined]);
    a primitive has none of the properties the function reads. *)
Definition getProp (h : store) (v : value) (k : string) : value :=
  match v with
  | VObj l => default VUndefined (h !! l ≫= (.!! k))
  | _ => VUndefined
  end.

(** [o.k = v] on the object at [l]. *)
Definition setProp (h : store) (l : positive) (k : string) (v : value) : store :=
  alter (<[k := v]>) l h.

(** The characters of a string as the indexed properties a spread copies. *)
Fixpoint charProps (i : nat) (s : string) : gmap string value :=
  match s with
  | EmptyString => ∅
  | String c s' => <[pretty i := VStr (String c EmptyString)]> (charProps (S i) s')
  end.

(** The own enumerable properties [{ ...v }] copies. *)
Definition ownProps (h : store) (v : value) : gmap string value :=
  match v with
  | VObj l => default ∅ (h !! l)
  | VStr s => charProps 0 s
  | _ => ∅
  end.

(** What a call can raise. *)
Inductive exn := TypeError.

(** [u && u.startsWith('/api/stream/')] as a condition: falsy [u] gives
    [false]; a truthy string is tested; any other truthy value has no
    [startsWith] method and the call raises. *)
Definition andStartsWithStream (u : value) : exn + bool :=
  if truthy u then
    match u with
    | VStr s => inr (Js.startsWith s "/api/stream/")
    | _ => inl TypeError
    end
  else inr false.

(** Template literal [`${a}${v}`] for a string [v]. *)
Definition concatStr (a : string) (v : value) : value :=
  match v with
  | VStr s => VStr (String.append a s)
  | _ => VUndefined
  end.

Definition processVideoUrls (h : store) (post : value) : store * (exn + value) :=
  if negb (truthy post) then (h, inr post) else
  let p := fresh (dom h) in
  let h := <[p := ownProps h post]> h in
  let processedPost := VObj p in
  match andStartsWithStream (getProp h post "uri") with
  | inl e => (h, inl e)
  | inr isStream =>
      let h :=
        if isStream then
          let h := setProp h p "uri"
                     (concatStr (Js.replace API_BASE_URL "/api" "") (getProp h post "uri")) in
          let h := setProp h p "streamingUrl" (getProp h processedPost "uri") in
          setProp h p "fallbackUrl"
            (jsOr (jsOr (getProp h post "fallback_url") (getProp h post "original_url")) VNull)
        else if truthy (getProp h post "uri") then
          let h := setProp h p "streamingUrl" VNull in
          let h := setProp h p "fallbackUrl" (getProp h post "uri") in
          setProp h p "uri" (getProp h post "uri")
        else h in
      match andStartsWithStream (getProp h post "thumbnail_url") with
      | inl e => (h, inl e)
      | inr isStreamThumb =>
          let h :=
            if isStreamThumb then
              setProp h p "thumbnail_url"
                (concatStr (Js.replace API_BASE_URL "/api" "") (getProp h post "thumbnail_url"))
            else h in
          (h, inr processedPost)
      end
  end.

(** Two stores agree off [p] when every reference but [p] holds the same
    object in both. *)
Definition agreesOff (p : positive) (h h' : store) : Prop :=
  ∀ l, l ≠ p → h' !! l = h !! l.

(** *** Streaming availability and the best URL, on typed posts *)

Section Probe.

(** The [HEAD] request is external: [None] when [fetch] throws, otherwise
    [response.ok]. *)
Variable headOk : string → option bool.

Definition checkStreamingAvailability (videoId : string) : option string :=
  let streamingUrl := String.append API_BASE_URL (String.append "/stream/video/" videoId) in
  match headOk streamingUrl with
  | Some true => Some streamingUrl
  | _ => None
  end.

Definition getBestVideoUrl (post : Post) : string :=
  if Js.truthyS (streamingUrl post) then default "" (streamingUrl post) else
  match (if negb (id post =? 0) then checkStreamingAvailability (pretty (id post)) else None) with
  | Some u => u
  | None =>
      match (if negb (String.eqb (uri post) "") && negb (Js.startsWith (uri post) "http")
             then checkStreamingAvailability (uri post) else None) with
      | Some u => u
      | None => if Js.truthyS (fallbackUrl post) then default "" (fallbackUrl post) else uri post
      end
  end.

End Probe.

End Api.

(** ** [VideoContext]: the catalog and the aggregate metrics *)

Module VideoContext.
Import Types.

Definition sampleVideo (n : Z) (u : string) (l : Z) : Post :=
  {| id := n; uri := u;
     caption := Some "A short caption similar to explanatory headline.";
     source := Some {| name := "USA Today"; imageuri := Some "https://i.imgur.com/P8OOZMm.png" |};
     likes := Some l; facts := Some []; tags := Some [];
     originalUri := None; streamingUrl := None; fallbackUrl := None; isStreaming := None |}.

(** The bundled catalog. *)
Definition VIDEOS : list Post := [
  sampleVideo 1 "https://drive.google.com/uc?export=download&id=1567uKxxJx9J5uvf0BbLU-Qipe0YZZl39" 3800;
  sampleVideo 2 "https://drive.google.com/uc?export=download&id=17QAoPwiSeQjm-v8uO3gp7BymemHCzh_T" 2500;
  sampleVideo 3 "https://drive.google.com/uc?export=download&id=19YlJ9AcQJxlocoe3puA5aHriaKtvufB8" 1900;
  sampleVideo 4 "https://drive.google.com/uc?export=download&id=1ZiEPJPjTlYUnOabU7UjnoFtrbT6JNKaJ" 4200;
  sampleVideo 5 "https://drive.google.com/uc?export=download&id=1h2Ns1ZKui5XPB8c1sUxHMPKB7ElVB5sW" 3100;
  sampleVideo 6 "https://drive.google.com/uc?export=download&id=1jrZaKS8ZkycMCCW9wdcLQuJTuh4p8WS0" 2800;
  sampleVideo 7 "https://drive.google.com/uc?export=download&id=1pqHpIZuIR3rCDhdYJkDB6BOYEcwV7ejG" 3500
].

(** The provider's state.  [lastViewedRef] is the provider's own ref object;
    the feed screen keeps another one. *)
Record State := {
  videos : list Post;
  timeSpent : gmap string Z;
  maxScrollDepth : Z;
  videoCount : Z;
  lastViewedRef : LastViewed
}.

Definition initial : State :=
  {| videos := []; timeSpent := ∅; maxScrollDepth := 0; videoCount := 0;
     lastViewedRef := noView |}.

Definition setVideos (vs : list Post) (c : State) : State :=
  {| videos := vs; timeSpent := timeSpent c; maxScrollDepth := maxScrollDepth c;
     videoCount := videoCount c; lastViewedRef := lastViewedRef c |}.

(** *** [fetchVideos] *)

(** How [postsApi.getPosts()] settles: it throws, or it yields a possibly
    missing list. *)
Inductive Fetched :=
| FetchFailed (e : string)
| FetchOk (apiVideos : option (list Post)).

Section Fetch.

Variable headOk : string → option bool.

(** The body of the [map] callback.  On a typed post [getBestVideoUrl]
    returns a string and nothing in the [try] block throws. *)
Definition processVideo (video : Post) : Post :=
  let bestUrl := Api.getBestVideoUrl headOk video in
  {| id := id video; uri := bestUrl; caption := caption video; source := source video;
     likes := likes video; facts := facts video; tags := tags video;
     originalUri := Some (uri video);
     streamingUrl := streamingUrl video; fallbackUrl := fallbackUrl video;
     isStreaming := Some (Js.includes bestUrl "/stream/") |}.

Definition fetchVideos (r : Fetched) (c : State) : State :=
  match r with
  | FetchOk (Some apiVideos) =>
      if bool_decide (0 < length apiVideos)%nat
      then setVideos (map processVideo apiVideos) c
      else setVideos VIDEOS c
  | FetchOk None => setVideos VIDEOS c
  | FetchFailed _ => setVideos VIDEOS c
  end.

End Fetch.

(** *** The metric updates *)

Definition updateTimeSpent (videoId : string) (duration : Z) (c : State) : State :=
  {| videos := videos c;
     timeSpent := <[videoId := default 0 (timeSpent c !! videoId) + duration]> (timeSpent c);
     maxScrollDepth := maxScrollDepth c; videoCount := videoCount c;
     lastViewedRef := lastViewedRef c |}.

Definition updateScrollDepth (depth : Z) (c : State) : State :=
  {| videos := videos c; timeSpent := timeSpent c;
     maxScrollDepth := Z.max (maxScrollDepth c) depth;
     videoCount := videoCount c; lastViewedRef := lastViewedRef c |}.

Definition incrementVideoCount (c : State) : State :=
  {| videos := videos c; timeSpent := timeSpent c; maxScrollDepth := maxScrollDepth c;
     videoCount := videoCount c + 1; lastViewedRef := lastViewedRef c |}.

Definition resetMetrics (c : State) : State :=
  {| videos := videos c; timeSpent := ∅; maxScrollDepth := 0; videoCount := 0;
     lastViewedRef := noView |}.

End VideoContext.

(** ** The feed screen, [src/screens/Feed/index.tsx]

    The screen keeps the playback handles of the mounted posts
    ([mediaRefs]), the last observed application state, the survey flag and
    its own [lastViewedRef]; the metrics live in the [VideoContext]
    provider.  The calls into [utils/analytics] are left out: that module is
    switched off ([isAnalyticsEnabled] is [false]) and keeps state of its
    own that nothing here reads. *)

Module FeedTs.
Import Types.

Section Feed.

Context {H : Type} {R : Types.VideoRef H}.

Record State := {
  mediaRefs : gmap string H;
  appStateRef : AppStateStatus;
  showSurvey : bool;
  lastViewedRef : LastViewed;
  ctx : VideoContext.State
}.

Definition initial (a : AppStateStatus) (c : VideoContext.State) : State :=
  {| mediaRefs := ∅; appStateRef := a; showSurvey := false;
     lastViewedRef := noView; ctx := c |}.

Definition setMediaRefs (m : gmap string H) (s : State) : State :=
  {| mediaRefs := m; appStateRef := appStateRef s; showSurvey := showSurvey s;
     lastViewedRef := lastViewedRef s; ctx := ctx s |}.

Definition setAppStateRef (a : AppStateStatus) (s : State) : State :=
  {| mediaRefs := mediaRefs s; appStateRef := a; showSurvey := showSurvey s;
     lastViewedRef := lastViewedRef s; ctx := ctx s |}.

Definition setShowSurvey (b : bool) (s : State) : State :=
  {| mediaRefs := mediaRefs s; appStateRef := appStateRef s; showSurvey := b;
     lastViewedRef := lastViewedRef s; ctx := ctx s |}.

Definition setLastViewedRef (l : LastViewed) (s : State) : State :=
  {| mediaRefs := mediaRefs s; appStateRef := appStateRef s; showSurvey := showSurvey s;
     lastViewedRef := l; ctx := ctx s |}.

Definition withCtx (f : VideoContext.State → VideoContext.State) (s : State) : State :=
  {| mediaRefs := mediaRefs s; appStateRef := appStateRef s; showSurvey := showSurvey s;
     lastViewedRef := lastViewedRef s; ctx := f (ctx s) |}.

(** [if (mediaRefs.current[id]) mediaRefs.current[id]?.m()] *)
Definition callRef (m : H → H) (videoId : string) (s : State) : State :=
  setMediaRefs (alter m videoId (mediaRefs s)) s.

(** The body of [changed.forEach] in [onViewableItemsChangedCallback]. *)
Definition onElement (s : State) (element : ViewToken) : State :=
  let videoId := key element in
  if isViewable element then
    let s := callRef play videoId s in
    let s := setLastViewedRef
               {| startTime := Some (now element); contentId := Some videoId |} s in
    let s := withCtx (VideoContext.updateScrollDepth (index element + 1)) s in
    withCtx VideoContext.incrementVideoCount s
  else
    let s := callRef pause videoId s in
    if Js.truthyZ (startTime (lastViewedRef s))
       && bool_decide (contentId (lastViewedRef s) = Some videoId)
    then
      let duration := Js.minusNull (now element) (startTime (lastViewedRef s)) in
      let s := withCtx (VideoContext.updateTimeSpent videoId duration) s in
      setLastViewedRef noView s
    else s.

Definition onViewableItemsChangedCallback (changed : list ViewToken) (s : State) : State :=
  foldl onElement s changed.

(** [currentContentId && mediaRefs.current[currentContentId]], then the call. *)
Definition callCurrent (m : H → H) (s : State) : State :=
  match contentId (lastViewedRef s) with
  | Some currentContentId =>
      if Js.truthyS (Some currentContentId) then callRef m currentContentId s else s
  | None => s
  end.

Definition handleAppStateChange (nextAppState : AppStateStatus) (s : State) : State :=
  let s :=
    if bool_decide (nextAppState = inactive) || bool_decide (nextAppState = background)
    then callCurrent pause (setShowSurvey true s)
    else s in
  let s :=
    if bool_decide (nextAppState = active) && negb (bool_decide (appStateRef s = active))
    then callCurrent play s
    else s in
  setAppStateRef nextAppState s.

(** What reaches the screen: viewability batches, application state
    changes, the survey's submit button, [resetMetrics] of the provider
    (called by the mount effect, and open to every consumer of the
    context), and the ref callback of [renderItem], which stores a post's
    handle on mount and [null] on unmount. *)
Inductive Event :=
| ViewableItemsChanged (changed : list ViewToken)
| AppStateChange (nextAppState : AppStateStatus)
| SurveySubmit
| ResetMetrics
| RefAttach (videoId : string) (postRef : H)
| RefDetach (videoId : string).

Definition step (s : State) (e : Event) : State :=
  match e with
  | ViewableItemsChanged changed => onViewableItemsChangedCallback changed s
  | AppStateChange nextAppState => handleAppStateChange nextAppState s
  | SurveySubmit => setShowSurvey false s
  | ResetMetrics => withCtx VideoContext.resetMetrics s
  | RefAttach videoId postRef => setMediaRefs (<[videoId := postRef]> (mediaRefs s)) s
  | RefDetach videoId => setMediaRefs (delete videoId (mediaRefs s)) s
  end.

Definition run (s : State) (es : list Event) : State := foldl step s es.

End Feed.

Arguments State H : clear implicits.
Arguments Event H : clear implicits.

End FeedTs.

(** ** The JavaScript feed screen

    This screen keeps [maxScrollDepth], [timeSpent] and [videoCount]
    in its own state and raises the survey from the counter. *)

Module FeedJs.
Import Types.

Record Batch := {
  viewableItems : list ViewToken;
  changed : list ViewToken;
  currentTime : Z
}.

Section Feed.

Context {H : Type} {R : Types.VideoRef H}.

Record State := {
  mediaRefs : gmap string H;
  showSurvey : bool;
  maxScrollDepth : Z;
  timeSpent : gmap string Z;
  videoCount : Z;
  lastViewedRef : LastViewed
}.

Definition initial : State :=
  {| mediaRefs := ∅; showSurvey := false; maxScrollDepth := 0; timeSpent := ∅;
     videoCount := 0; lastViewedRef := noView |}.

Definition setMediaRefs (m : gmap string H) (s : State) : State :=
  {| mediaRefs := m; showSurvey := showSurvey s; maxScrollDepth := maxScrollDepth s;
     timeSpent := timeSpent s; videoCount := videoCount s;
     lastViewedRef := lastViewedRef s |}.

Definition setShowSurvey (b : bool) (s : State) : State :=
  {| mediaRefs := mediaRefs s; showSurvey := b; maxScrollDepth := maxScrollDepth s;
     timeSpent := timeSpent s; videoCount := videoCount s;
     lastViewedRef := lastViewedRef s |}.

Definition setMaxScrollDepth (f : Z → Z) (s : State) : State :=
  {| mediaRefs := mediaRefs s; showSurvey := showSurvey s;
     maxScrollDepth := f (maxScrollDepth s);
     timeSpent := timeSpent s; videoCount := videoCount s;
     lastViewedRef := lastViewedRef s |}.

Definition setTimeSpent (f : gmap string Z → gmap string Z) (s : State) : State :=
  {| mediaRefs := mediaRefs s; showSurvey := showSurvey s; maxScrollDepth := maxScrollDepth s;
     timeSpent := f (timeSpent s); videoCount := videoCount s;
     lastViewedRef := lastViewedRef s |}.

Definition setLastViewedRef (l : LastViewed) (s : State) : State :=
  {| mediaRefs := mediaRefs s; showSurvey := showSurvey s; maxScrollDepth := maxScrollDepth s;
     timeSpent := timeSpent s; videoCount := videoCount s; lastViewedRef := l |}.

(** The updater passed to [setTimeSpent]:
    [{ ...prev, [k]: (prev[k] || 0) + duration }]. *)
Definition addTime (k : string) (duration : Z) (prevTimeSpent : gmap string Z)
  : gmap string Z :=
  <[k := default 0 (prevTimeSpent !! k) + duration]> prevTimeSpent.

(** The call [setVideoCount((prevCount) => ...)] of the handler: the updater
    adds one and raises the survey when the new count is a multiple of five
    ([%] is the truncating remainder). *)
Definition setVideoCount (s : State) : State :=
  let newCount := videoCount s + 1 in
  let s := if Z.rem newCount 5 =? 0 then setShowSurvey true s else s in
  {| mediaRefs := mediaRefs s; showSurvey := showSurvey s; maxScrollDepth := maxScrollDepth s;
     timeSpent := timeSpent s; videoCount := newCount;
     lastViewedRef := lastViewedRef s |}.

(** The body of [changed.forEach]. *)
Definition onElement (s : State) (element : ViewToken) : State :=
  match mediaRefs s !! key element with
  | Some cell =>
      if isViewable element then
        setMediaRefs (<[key element := play cell]> (mediaRefs s)) s
      else
        let s := setMediaRefs (<[key element := pause cell]> (mediaRefs s)) s in
        if bool_decide (Some (key element) = contentId (lastViewedRef s)) then
          let duration := Js.minusNull (now element) (startTime (lastViewedRef s)) in
          setTimeSpent (addTime (key element) duration) s
        else s
  | None => s
  end.

Definition onViewableItemsChanged (b : Batch) (s : State) : State :=
  (* time tracking: the item viewed last *)
  let s :=
    match contentId (lastViewedRef s) with
    | Some lastContentId =>
        let duration := Js.minusNull (currentTime b) (startTime (lastViewedRef s)) in
        setTimeSpent (addTime lastContentId duration) s
    | None => s
    end in
  let s :=
    match viewableItems b with
    | first :: _ =>
        setLastViewedRef
          {| startTime := Some (currentTime b); contentId := Some (key first) |} s
    | [] => s
    end in
  let s :=
    match last (viewableItems b) with
    | Some deepest => setMaxScrollDepth (λ prevDepth, Z.max prevDepth (index deepest)) s
    | None => s
    end in
  let s :=
    match viewableItems b with
    | first :: _ =>
        let isNewVideoViewed :=
          existsb (λ item, isViewable item && bool_decide (key item = key first))
            (changed b) in
        if isNewVideoViewed then setVideoCount s else s
    | [] => s
    end in
  foldl onElement s (changed b).

(** [currentContentId && mediaRefs.current[currentContentId]], then the call. *)
Definition callCurrent (m : H → H) (s : State) : State :=
  match contentId (lastViewedRef s) with
  | Some currentContentId =>
      if Js.truthyS (Some currentContentId)
      then setMediaRefs (alter m currentContentId (mediaRefs s)) s
      else s
  | None => s
  end.

(** The [AppState] listener: no record of the previous state is kept. *)
Definition appStateListener (nextAppState : AppStateStatus) (s : State) : State :=
  let s :=
    if bool_decide (nextAppState = inactive) || bool_decide (nextAppState = background)
    then callCurrent pause (setShowSurvey true s)
    else s in
  if bool_decide (nextAppState = active) then callCurrent play s else s.

Inductive Event :=
| ViewableItemsChanged (b : Batch)
| AppStateChange (nextAppState : AppStateStatus)
| SurveySubmit
| RefAttach (videoId : string) (postRef : H)
| RefDetach (videoId : string).

Definition step (s : State) (e : Event) : State :=
  match e with
  | ViewableItemsChanged b => onViewableItemsChanged b s
  | AppStateChange nextAppState => appStateListener nextAppState s
  | SurveySubmit => setShowSurvey false s
  | RefAttach videoId postRef => setMediaRefs (<[videoId := postRef]> (mediaRefs s)) s
  | RefDetach videoId => setMediaRefs (delete videoId (mediaRefs s)) s
  end.

Definition run (s : State) (es : list Event) : State := foldl step s es.

End Feed.

Arguments State H : clear implicits.
Arguments Event H : clear implicits.

End FeedJs.

(** ** Observations used in the statements *)

Module Observe.
Import Types.

(** A handle that only records the calls it receives, oldest first. *)
Inductive Command := Play | Pause | Unload.

#[global] Instance Command_eq_dec : EqDecision Command.
Proof. solve_decision. Defined.

Definition Recorder : VideoRef (list Command) := {|
  play calls := calls ++ [Play];
  pause calls := calls ++ [Pause];
  unload calls := calls ++ [Unload]
|}.

(** A post is playing when it is mounted and its player was last told to
    play. *)
Definition isPlaying (st : Post.State) : bool :=
  match Post.videoRef st with
  | Some v => Post.shouldPlay v
  | None => false
  end.

Definition playingIds (m : gmap string Post.State) : gset string :=
  dom (filter (λ kv, isPlaying kv.2 = true) m).

(** The command a [changed] entry stands for. *)
Definition commandOf {H : Type} {R : Types.VideoRef H} (element : ViewToken) : H → H :=
  if isViewable element then play else pause.

(** The handles after the entries of a batch have each been sent their
    command, entry by entry. *)
Definition commanded {H : Type} {R : Types.VideoRef H}
    (m : gmap string H) (changed : list ViewToken) : gmap string H :=
  foldl (λ m element, alter (commandOf element) (key element) m) m changed.



(** The session the TypeScript screen holds open, if any. *)
Definition openSession (l : LastViewed) : option (string * Z) :=
  match contentId l, startTime l with
  | Some k, Some t => Some (k, t)
  | _, _ => None
  end.

(** The screen's ref holds nothing, or a session with a truthy start. *)
Definition holdsSession (l : LastViewed) : Prop :=
  l = noView ∨ ∃ k t, t ≠ 0 ∧ l = {| startTime := Some t; contentId := Some k |}.

(** The sessions the TypeScript screen closes, read off the reports alone.
    A report that an item is viewable starts a session for it at that
    instant, replacing the session held before, which is dropped and not
    closed; a report that the item of the held session is no longer
    viewable closes it.  [reportClosedTime] is the total duration of the
    sessions of [itemId] closed along the reports. *)
Fixpoint reportClosedTime (itemId : string) (open : option (string * Z))
    (reports : list ViewToken) : Z :=
  match reports with
  | [] => 0
  | r :: reports' =>
      if isViewable r then reportClosedTime itemId (Some (key r, now r)) reports'
      else
        match open with
        | Some (k, t0) =>
            if bool_decide (k = key r) then
              (if bool_decide (k = itemId) then now r - t0 else 0)
                + reportClosedTime itemId None reports'
            else reportClosedTime itemId open reports'
        | None => reportClosedTime itemId None reports'
        end
  end.

End Observe.

(** ** Concrete inputs *)

Module Sample.
Import Types.

Definition tok (k : string) (v : bool) (i t : Z) : ViewToken :=
  {| key := k; isViewable := v; index := i; now := t |}.

(** A mounted post with a loaded, paused player. *)
Definition paused : Post.State :=
  {| Post.videoRef := Some {| Post.shouldPlay := false; Post.isLoaded := true |};
     Post.videoSource := "https://drive.google.com/uc?export=download&id=1567uKxxJx9J5uvf0BbLU-Qipe0YZZl39";
     Post.hasError := false; Post.isLoading := false |}.

(** An item with three distinct tiers: streaming, fallback, original. *)
Definition tierA : string := "http://192.168.1.10:3000/api/stream/video/1".
Definition tierB : string := "https://cdn.example.org/fallback/1.mp4".
Definition tierC : string := "https://origin.example.org/original/1.mp4".

Definition threeTiers : Post :=
  {| id := 1; uri := tierA; caption := None; source := None; likes := None;
     facts := None; tags := None;
     originalUri := Some tierC; streamingUrl := Some tierA;
     fallbackUrl := Some tierB; isStreaming := Some true |}.

(** Item 1 is viewed from t = 1000 and leaves the screen at t = 2200 while
    no other item has reached the visibility threshold. *)
Definition enter1 : FeedJs.Batch :=
  {| FeedJs.viewableItems := [tok "1" true 0 1000];
     FeedJs.changed := [tok "1" true 0 1000];
     FeedJs.currentTime := 1000 |}.

Definition leave1 : FeedJs.Batch :=
  {| FeedJs.viewableItems := [];
     FeedJs.changed := [tok "1" false 0 2200];
     FeedJs.currentTime := 2200 |}.

(** Items 1 and 2 reach the threshold in the same batch. *)
Definition enter12 : FeedJs.Batch :=
  {| FeedJs.viewableItems := [tok "1" true 0 1000; tok "2" true 1 1000];
     FeedJs.changed := [tok "1" true 0 1000; tok "2" true 1 1000];
     FeedJs.currentTime := 1000 |}.


(** Two mounted, paused posts in the JavaScript screen. *)
Definition twoMounted : list (FeedJs.Event Post.State) :=
  [FeedJs.RefAttach "1" paused; FeedJs.RefAttach "2" paused].

(** Event sequences of the two screens over real post handles. *)
Definition tsEvents : list (FeedTs.Event Post.State) :=
  [FeedTs.RefAttach "1" paused;
   FeedTs.ViewableItemsChanged [tok "1" true 0 1000];
   FeedTs.AppStateChange background;
   FeedTs.AppStateChange active;
   FeedTs.ViewableItemsChanged [tok "2" true 1 2000; tok "1" false 0 2000]].

Definition jsEvents : list (FeedJs.Event Post.State) :=
  [FeedJs.RefAttach "1" paused;
   FeedJs.ViewableItemsChanged enter1;
   FeedJs.ViewableItemsChanged leave1].

(** The TypeScript screen in the foreground with item 2 in view since
    t = 1000; the handle of item 2 records the calls it receives. *)
Definition watching2 : FeedTs.State (list Observe.Command) :=
  {| FeedTs.mediaRefs := {["2" := []]};
     FeedTs.appStateRef := active;
     FeedTs.showSurvey := false;
     FeedTs.lastViewedRef := {| startTime := Some 1000; contentId := Some "2" |};
     FeedTs.ctx := VideoContext.initial |}.


(** A fetched post that already points at a streaming endpoint, in a store
    of its own. *)
Definition streamingPost : gmap string Api.value :=
  {[ "id" := Api.VNum 1;
     "uri" := Api.VStr "/api/stream/video/1.mp4";
     "original_url" := Api.VStr "https://origin.example.org/original/1.mp4" ]}.

Definition oneObject : gmap positive (gmap string Api.value) :=
  {[ 1%positive := streamingPost ]}.

End Sample.

(** ** Playback status of the [Post] component *)

Module PostStatus.
Import Types.

(** [AVPlaybackStatus] of expo-av, as far as the handler reads it: a status
    that is not loaded may carry an error; a loaded one says whether the
    player is buffering. *)
Inductive AVPlaybackStatus :=
| NotLoaded (error : option string)
| Loaded (isBuffering : bool).

Definition setHasError (b : bool) (st : Post.State) : Post.State :=
  {| Post.videoRef := Post.videoRef st; Post.videoSource := Post.videoSource st;
     Post.hasError := b; Post.isLoading := Post.isLoading st |}.

(** [handlePlaybackStatusUpdate] *)
Definition handlePlaybackStatusUpdate
    (data : Types.Post) (status : AVPlaybackStatus) (st : Post.State) : Post.State :=
  match status with
  | NotLoaded error =>
      if Js.truthyS error then Post.handleVideoError data st
      else Post.setIsLoading true st
  | Loaded isBuffering =>
      if isBuffering then Post.setIsLoading true st
      else setHasError false (Post.setIsLoading false st)
  end.

(** The callbacks the component passes to [Video]. *)
Inductive VideoEvent :=
| OnError
| OnPlaybackStatusUpdate (status : AVPlaybackStatus)
| OnLoadStart.

Definition onVideoEvent (data : Types.Post) (st : Post.State) (e : VideoEvent)
  : Post.State :=
  match e with
  | OnError => Post.handleVideoError data st
  | OnPlaybackStatusUpdate status => handlePlaybackStatusUpdate data status st
  | OnLoadStart => Post.setIsLoading true st
  end.

Definition runVideo (data : Types.Post) (st : Post.State) (es : list VideoEvent)
  : Post.State :=
  foldl (onVideoEvent data) st es.


(** Calls on the handle, each with the player's answer to it: [true] is
    [play], [false] is [pause]. *)
Definition call (c : bool * option string) (st : Post.State) : Post.State :=
  if c.1 then (Post.play c.2 st).1 else (Post.pause c.2 st).1.

Definition runCalls (cs : list (bool * option string)) (st : Post.State)
  : Post.State :=
  foldl (λ st c, call c st) st cs.

End PostStatus.

(** ** The API client: [fetchWithErrorHandling] and [postsApi.getPosts] *)

Module ApiClient.
Import Api.

(** A parsed JSON body: an array of values or a single value.  Objects of
    the body live in the store. *)
Inductive json :=
| JArray (items : list value)
| JValue (v : value).

(** How [fetch] and the reading of the body go: [fetch] throws, or yields a
    response whose [json()] gives a body or rejects. *)
Inductive FetchOutcome :=
| NetworkError (e : string)
| Response (ok : bool) (status : Z) (statusText : string) (body : string + json).

(** What the client throws.  [ApiError] carries the argument given to
    [new Error]. *)
Inductive failure :=
| Network (e : string)
| Parse (e : string)
| ApiError (message : value)
| TypeFailure.

(** [errorData?.message] *)
Definition messageOf (h : store) (errorData : string + json) : value :=
  match errorData with
  | inr (JValue v) => getProp h v "message"
  | _ => VUndefined
  end.

Definition fetchWithErrorHandling (h : store) (o : FetchOutcome) : failure + json :=
  match o with
  | NetworkError e => inl (Network e)
  | Response ok status statusText body =>
      if negb ok then
        inl (ApiError
               (jsOr (messageOf h body)
                  (VStr (String.append "API error: "
                           (String.append (pretty status)
                              (String.append " " statusText))))))
      else
        match body with
        | inl e => inl (Parse e)
        | inr j => inr j
        end
  end.

(** [posts.map(processVideoUrls)]: the first post that raises ends the call. *)
Fixpoint mapProcess (h : store) (posts : list value) : store * (failure + list value) :=
  match posts with
  | [] => (h, inr [])
  | post :: posts' =>
      match processVideoUrls h post with
      | (h1, inl _) => (h1, inl TypeFailure)
      | (h1, inr processed) =>
          match mapProcess h1 posts' with
          | (h2, inl e) => (h2, inl e)
          | (h2, inr rest) => (h2, inr (processed :: rest))
          end
      end
  end.

(** [postsApi.getPosts] *)
Definition getPosts (h : store) (o : FetchOutcome) : store * (failure + list value) :=
  match fetchWithErrorHandling h o with
  | inl e => (h, inl e)
  | inr (JArray posts) => mapProcess h posts
  | inr (JValue _) => (h, inl TypeFailure)
  end.

(** A truthy value that is not a string: [startsWith] is not a method of
    it, and calling it raises. *)
Definition notAString (v : value) : bool :=
  truthy v && negb (match v with VStr _ => true | _ => false end).

(** A value that is a primitive or refers to an object of the store. *)
Definition inStore (h : store) (v : value) : Prop :=
  ∀ l, v = VObj l → is_Some (h !! l).


End ApiClient.

(** ** [utils/analytics]

    The module keeps its tracking state in module-level variables.  Each
    call of [Date.now()] is a reading of the clock; the readings are
    numbered in the order they are taken. *)

Module Analytics.
Import Types.

(** What [trackEvent] writes to the console. *)
Record Tracked := {
  event : string;
  timestamp : Z;
  videoId : option string;
  duration : option Z;
  completed : option bool
}.

Record State := {
  sessionStartTime : option Z;
  currentVideo : option string;
  videoStartTime : option Z;
  isAnalyticsEnabled : bool;
  reads : nat;
  console : list Tracked
}.

(** The module as loaded: analytics is off. *)
Definition loaded : State :=
  {| sessionStartTime := None; currentVideo := None; videoStartTime := None;
     isAnalyticsEnabled := false; reads := 0; console := [] |}.

Section Clock.

Variable clock : nat → Z.

(** [Date.now()] *)
Definition dateNow (s : State) : Z * State :=
  (clock (reads s),
   {| sessionStartTime := sessionStartTime s; currentVideo := currentVideo s;
      videoStartTime := videoStartTime s; isAnalyticsEnabled := isAnalyticsEnabled s;
      reads := S (reads s); console := console s |}).

Definition setSessionStartTime (t : option Z) (s : State) : State :=
  {| sessionStartTime := t; currentVideo := currentVideo s;
     videoStartTime := videoStartTime s; isAnalyticsEnabled := isAnalyticsEnabled s;
     reads := reads s; console := console s |}.

Definition setVideo (v : option string) (t : option Z) (s : State) : State :=
  {| sessionStartTime := sessionStartTime s; currentVideo := v;
     videoStartTime := t; isAnalyticsEnabled := isAnalyticsEnabled s;
     reads := reads s; console := console s |}.

Definition logEvent (e : Tracked) (s : State) : State :=
  {| sessionStartTime := sessionStartTime s; currentVideo := currentVideo s;
     videoStartTime := videoStartTime s; isAnalyticsEnabled := isAnalyticsEnabled s;
     reads := reads s; console := console s ++ [e] |}.

(** [trackEvent(eventName, properties)]; the properties the module passes
    are a video id, a duration and a completion flag. *)
Definition trackEvent (eventName : string)
    (vid : option string) (dur : option Z) (comp : option bool) (s : State) : State :=
  if negb (isAnalyticsEnabled s) then s else
  let '(t, s) := dateNow s in
  logEvent {| event := eventName; timestamp := t; videoId := vid;
              duration := dur; completed := comp |} s.

Definition startSession (s : State) : State :=
  if negb (isAnalyticsEnabled s) then s else
  let '(t, s) := dateNow s in
  let s := setSessionStartTime (Some t) s in
  trackEvent "session_start" None None None s.

Definition endSession (s : State) : State :=
  if negb (isAnalyticsEnabled s) then s else
  if Js.truthyZ (sessionStartTime s) then
    let '(t, s) := dateNow s in
    let sessionDuration := Js.minusNull t (sessionStartTime s) in
    let s := trackEvent "session_end" None (Some sessionDuration) None s in
    setSessionStartTime None s
  else s.

Definition endVideoView (s : State) : State :=
  if negb (isAnalyticsEnabled s) then s else
  if Js.truthyS (currentVideo s) && Js.truthyZ (videoStartTime s) then
    let '(t, s) := dateNow s in
    let d := Js.minusNull t (videoStartTime s) in
    let s := trackEvent "video_end" (currentVideo s) (Some d) (Some (1000 <? d)) s in
    setVideo None None s
  else s.

Definition startVideoView (vid : string) (s : State) : State :=
  if negb (isAnalyticsEnabled s) then s else
  let s :=
    if Js.truthyS (currentVideo s) && Js.truthyZ (videoStartTime s)
    then endVideoView s else s in
  let '(t, s) := dateNow s in
  let s := setVideo (Some vid) (Some t) s in
  trackEvent "video_start" (Some vid) None None s.

Definition handleAppStateChange (nextAppState : AppStateStatus) (s : State) : State :=
  if negb (isAnalyticsEnabled s) then s else
  if bool_decide (nextAppState = active) then
    if negb (Js.truthyZ (sessionStartTime s)) then startSession s else s
  else if bool_decide (nextAppState = background) || bool_decide (nextAppState = inactive)
  then
    if Js.truthyS (currentVideo s) then endVideoView s else s
  else s.

(** [setupAnalyticsTracking] and the cleanup function it returns.  The
    subscription to the application state is what delivers
    [handleAppStateChange]. *)
Definition setupAnalyticsTracking (s : State) : State :=
  if isAnalyticsEnabled s then startSession s else s.

Definition cleanup (s : State) : State :=
  if isAnalyticsEnabled s then endSession s else s.

(** [submitSurveyResponses]: resolves to [true] either way. *)
Definition submitSurveyResponses (s : State) : State * bool := (s, true).

Inductive Op :=
| StartSession
| EndSession
| StartVideoView (vid : string)
| EndVideoView
| HandleAppStateChange (nextAppState : AppStateStatus)
| Setup
| Cleanup
| SubmitSurveyResponses.

Definition apply (s : State) (o : Op) : State :=
  match o with
  | StartSession => startSession s
  | EndSession => endSession s
  | StartVideoView vid => startVideoView vid s
  | EndVideoView => endVideoView s
  | HandleAppStateChange nextAppState => handleAppStateChange nextAppState s
  | Setup => setupAnalyticsTracking s
  | Cleanup => cleanup s
  | SubmitSurveyResponses => (submitSurveyResponses s).1
  end.

Definition run (s : State) (os : list Op) : State := foldl apply s os.

End Clock.






End Analytics.

(** ** The login screen, [src/screens/Login/index.tsx] *)

Module Login.

(** The text of an input field as its UTF-16 code units, which is what
    [length] counts and [trim] inspects. *)
Abbreviation text := (list N).

(** White space and line terminators, as [String.prototype.trim] removes
    them. *)
Definition isWhiteSpace (c : N) : bool :=
  bool_decide (c ∈ [9; 10; 11; 12; 13; 32; 160; 5760; 8232; 8233; 8239; 8287;
                    12288; 65279]%N)
  || ((8192 <=? c)%N && (c <=? 8202)%N).

Fixpoint dropWhile (f : N → bool) (s : text) : text :=
  match s with
  | [] => []
  | c :: s' => if f c then dropWhile f s' else s
  end.

(** [s.trim()] *)
Definition trim (s : text) : text :=
  reverse (dropWhile isWhiteSpace (reverse (dropWhile isWhiteSpace s))).

(** [!s]: the empty string is the only falsy string. *)
Definition falsy (s : text) : bool := bool_decide (s = []).

Inductive Alert := alert (title message : string).

Record State := {
  email : text;
  password : text;
  isSubmitting : bool;
  alerts : list Alert;
  calls : list (text * text)
}.

Definition showAlert (a : Alert) (s : State) : State :=
  {| email := email s; password := password s; isSubmitting := isSubmitting s;
     alerts := alerts s ++ [a]; calls := calls s |}.

Definition setIsSubmitting (b : bool) (s : State) : State :=
  {| email := email s; password := password s; isSubmitting := b;
     alerts := alerts s; calls := calls s |}.

Definition recordCall (s : State) : State :=
  {| email := email s; password := password s; isSubmitting := isSubmitting s;
     alerts := alerts s; calls := calls s ++ [(email s, password s)] |}.

(** [validateForm] *)
Definition validateForm (s : State) : bool * State :=
  if falsy (trim (email s)) then
    (false, showAlert (alert "Email Required" "Please enter your email address") s)
  else if falsy (trim (password s)) then
    (false, showAlert (alert "Password Required" "Please enter your password") s)
  else if bool_decide (length (password s) < 6)%nat then
    (false, showAlert (alert "Password Too Short" "Password must be at least 6 characters") s)
  else (true, s).

(** [handleLogin] and [handleSignUp] differ in the method of the auth
    context they call and in the title of the failure alert.  [outcome] is
    how the awaited call settles: [None], or the message of the error it
    throws. *)
Definition submit (failureTitle : string) (outcome : option string) (s : State) : State :=
  let '(valid, s) := validateForm s in
  if negb valid then s else
  let s := setIsSubmitting true s in
  let s := recordCall s in
  let s :=
    match outcome with
    | None => s
    | Some message => showAlert (alert failureTitle message) s
    end in
  setIsSubmitting false s.

Definition handleLogin : option string → State → State := submit "Login Failed".
Definition handleSignUp : option string → State → State := submit "Registration Failed".

(** A text with something other than white space in it. *)
Definition hasContent (t : text) : Prop := ¬ Forall (λ c, isWhiteSpace c = true) t.

End Login.

(** ** The survey form, [src/components/SurveyForm/index.tsx] *)

Module SurveyForm.

Inductive Question := engagement | quality.

Record Responses := {
  engagementR : option Z;
  qualityR : option Z;
  feedback : string
}.

Definition initial : Responses :=
  {| engagementR := None; qualityR := None; feedback := "" |}.

(** The values of the buttons [renderRatingScale] draws. *)
Definition scale : list Z := [1; 2; 3; 4; 5].

Definition handleRating (question : Question) (value : Z) (r : Responses) : Responses :=
  match question with
  | engagement =>
      {| engagementR := Some value; qualityR := qualityR r; feedback := feedback r |}
  | quality =>
      {| engagementR := engagementR r; qualityR := Some value; feedback := feedback r |}
  end.

Definition handleFeedbackChange (text : string) (r : Responses) : Responses :=
  {| engagementR := engagementR r; qualityR := qualityR r; feedback := text |}.

Inductive Answer := Num (n : Z) | Text (s : string).

(** [SurveyResponse] of [src/types/index.ts]. *)
Record SurveyResponse := {
  questionId : string;
  answer : Answer;
  timestamp : Z
}.

(** [x || 0] *)
Definition orZero (x : option Z) : Z := if Js.truthyZ x then default 0 x else 0.

(** The responses [handleSubmit] builds; [t1], [t2], [t3] are the three
    readings of [Date.now()]. *)
Definition handleSubmit (t1 t2 t3 : Z) (r : Responses) : list SurveyResponse :=
  [ {| questionId := "engagement"; answer := Num (orZero (engagementR r)); timestamp := t1 |};
    {| questionId := "quality"; answer := Num (orZero (qualityR r)); timestamp := t2 |};
    {| questionId := "feedback"; answer := Text (feedback r); timestamp := t3 |} ].

(** What the user does with the form: press a button of a rating scale, or
    edit the feedback text. *)
Inductive Input :=
| PressRating (question : Question) (value : Z)
| ChangeText (text : string).

Definition onInput (r : Responses) (i : Input) : Responses :=
  match i with
  | PressRating question value => handleRating question value r
  | ChangeText text => handleFeedbackChange text r
  end.

(** The presses a rendered form can produce: only the values of the scale. *)
Definition fromScale (i : Input) : Prop :=
  match i with
  | PressRating _ value => value ∈ scale
  | ChangeText _ => True
  end.

(** A rating as submitted: [0] for a question never rated, else the value
    of the button pressed last. *)
Definition rated (x : option Z) (a : Z) : Prop :=
  (x = None ∧ a = 0) ∨ (x = Some a ∧ 1 ≤ a ≤ 5).

End SurveyForm.

(** ** Measures used in the statements of the further properties *)

Module Measure.
Import Types.

(** The durations reported for [videoId] in a list of updates, summed. *)
Fixpoint sumFor (videoId : string) (updates : list (string * Z)) : Z :=
  match updates with
  | [] => 0
  | (k, d) :: updates' =>
      (if bool_decide (k = videoId) then d else 0) + sumFor videoId updates'
  end.

(** A sequence of [updateTimeSpent] calls. *)
Definition updateAll (updates : list (string * Z)) (c : VideoContext.State)
  : VideoContext.State :=
  foldl (λ c u, VideoContext.updateTimeSpent u.1 u.2 c) c updates.

(** The time recorded over all items. *)
Definition total (m : gmap string Z) : Z := map_fold (λ _ v acc, v + acc) 0 m.

(** The number of viewable reports in a batch. *)
Definition viewableCount (changed : list ViewToken) : Z :=
  Z.of_nat (length (filter (λ r, isViewable r = true) changed)).


(** The reports the viewability batches of an event sequence carry, in
    order. *)
Definition reportsOf {H : Type} (es : list (FeedTs.Event H)) : list ViewToken :=
  concat (map (λ e, match e with
                    | FeedTs.ViewableItemsChanged changed => changed
                    | _ => []
                    end) es).

(** The session left open by a list of reports (see [reportClosedTime]). *)
Definition sessionAfter (open : option (string * Z)) (reports : list ViewToken)
  : option (string * Z) :=
  foldl (λ open r,
           if isViewable r then Some (key r, now r)
           else match open with
                | Some (k, _) => if bool_decide (k = key r) then None else open
                | None => None
                end) open reports.

(** An application state change that takes the application off the
    foreground. *)
Definition leavesForeground {H : Type} (e : FeedTs.Event H) : Prop :=
  e = FeedTs.AppStateChange inactive ∨ e = FeedTs.AppStateChange background.

(** The ref callback of [renderItem]: a post mounting or unmounting. *)
Definition isRefCallback {H : Type} (e : FeedTs.Event H) : Prop :=
  match e with
  | FeedTs.RefAttach _ _ | FeedTs.RefDetach _ => True
  | _ => False
  end.

(** A batch of the JavaScript screen as the list delivers it: some item is
    viewable, and no entry reports the first viewable item as gone. *)
Definition consistent (b : FeedJs.Batch) : Prop :=
  FeedJs.viewableItems b ≠ []
  ∧ ∀ first rest, FeedJs.viewableItems b = first :: rest →
      Forall (λ r, isViewable r = false → key r ≠ key first) (FeedJs.changed b).

(** The batches of the JavaScript screen in a row. *)
Definition batches {H : Type} {R : Types.VideoRef H}
    (bs : list FeedJs.Batch) (s : FeedJs.State H) : FeedJs.State H :=
  foldl (λ s b, FeedJs.onViewableItemsChanged b s) s bs.

End Measure.

(** ** Further concrete inputs *)

Module Cases.
Import Types.

(** A post of the bundled catalog as the API delivers posts with external
    URLs, after [processVideoUrls]: the fallback is the URL itself. *)
Definition external : Post :=
  {| id := 3; uri := "https://drive.google.com/uc?export=download&id=19YlJ9AcQJxlocoe3puA5aHriaKtvufB8";
     caption := None; source := None; likes := Some 1900; facts := None; tags := None;
     originalUri := None; streamingUrl := None;
     fallbackUrl := Some "https://drive.google.com/uc?export=download&id=19YlJ9AcQJxlocoe3puA5aHriaKtvufB8";
     isStreaming := None |}.

(** A probe that finds nothing, and one that finds the endpoint of video 3. *)
Definition offline : string → option bool := λ _, None.

Definition streams3 : string → option bool :=
  λ u, Some (String.eqb u "http://192.168.1.10:3000/api/stream/video/3").

(** Item 1 comes into view at t = 1000; the application goes to the
    background and comes back; item 1 leaves the screen at t = 2200. *)
Definition viewedAcrossBackground : list (FeedTs.Event Post.State) :=
  [FeedTs.RefAttach "1" Sample.paused;
   FeedTs.ViewableItemsChanged [Sample.tok "1" true 0 1000];
   FeedTs.AppStateChange background;
   FeedTs.AppStateChange active;
   FeedTs.ViewableItemsChanged [Sample.tok "1" false 0 2200]].

(** Three batches of the JavaScript screen, each with an item in view: item
    1 at t = 1000, item 2 joining at t = 1500, item 1 gone at t = 2600. *)
Definition threeBatches : list FeedJs.Batch :=
  [ {| FeedJs.viewableItems := [Sample.tok "1" true 0 1000];
       FeedJs.changed := [Sample.tok "1" true 0 1000];
       FeedJs.currentTime := 1000 |};
    {| FeedJs.viewableItems := [Sample.tok "1" true 0 1500; Sample.tok "2" true 1 1500];
       FeedJs.changed := [Sample.tok "2" true 1 1500];
       FeedJs.currentTime := 1500 |} ].

Definition lastBatch : FeedJs.Batch :=
  {| FeedJs.viewableItems := [Sample.tok "2" true 1 2600];
     FeedJs.changed := [Sample.tok "1" false 0 2600];
     FeedJs.currentTime := 2600 |}.

(** The JavaScript screen with item 1 mounted and in view since t = 400. *)
Definition jsWatching1 : FeedJs.State Post.State :=
  {| FeedJs.mediaRefs := {["1" := Sample.paused]}; FeedJs.showSurvey := false;
     FeedJs.maxScrollDepth := 0; FeedJs.timeSpent := ∅; FeedJs.videoCount := 1;
     FeedJs.lastViewedRef := {| startTime := Some 400; contentId := Some "1" |} |}.

(** A clock that advances 700 ms per reading, from t = 1000. *)
Definition clock700 : nat → Z := λ n, 1000 + 700 * Z.of_nat n.


(** A store with a well-formed post and a post whose [uri] is a number. *)
Definition numericUri : gmap string Api.value :=
  {[ "id" := Api.VNum 7; "uri" := Api.VNum 42 ]}.

Definition twoPosts : gmap positive (gmap string Api.value) :=
  {[ 1%positive := Sample.streamingPost; 2%positive := numericUri ]}.

Definition okResponse (posts : list Api.value) : ApiClient.FetchOutcome :=
  ApiClient.Response true 200 "OK" (inr (ApiClient.JArray posts)).

(** Viewing video 1, then video 2, going to the background, coming back. *)
Definition viewing : list Analytics.Op :=
  [Analytics.Setup; Analytics.StartVideoView "1"; Analytics.StartVideoView "2";
   Analytics.HandleAppStateChange background; Analytics.HandleAppStateChange active;
   Analytics.EndVideoView; Analytics.Cleanup].

(** The login form with an email and a five-character password. *)
Definition shortPassword : Login.State :=
  {| Login.email := [97; 64; 98; 46; 99]%N;
     Login.password := [115; 101; 99; 114; 116]%N;
     Login.isSubmitting := false; Login.alerts := []; Login.calls := [] |}.

Definition goodPassword : Login.State :=
  {| Login.email := [97; 64; 98; 46; 99]%N;
     Login.password := [115; 101; 99; 114; 101; 116]%N;
     Login.isSubmitting := false; Login.alerts := []; Login.calls := [] |}.

End Cases.

(** * Properties *)

(** ** The playback handle *)

Section Handle.
Import Post.

Variable fails : option string.

Lemma play_fulfils st : (play fails st).2 = Fulfilled tt.
Proof. unfold play. destruct (videoRef st), fails; reflexivity. Qed.

Lemma pause_fulfils st : (pause fails st).2 = Fulfilled tt.
Proof. unfold pause. destruct (videoRef st), fails; reflexivity. Qed.

Lemma unload_fulfils st : (unload fails st).2 = Fulfilled tt.
Proof. unfold unload. destruct (videoRef st), fails; reflexivity. Qed.

(** With the ref cleared the methods return before touching anything. *)
Lemma unmounted_noop st :
  videoRef st = None →
  (play fails st).1 = st ∧ (pause fails st).1 = st ∧ (unload fails st).1 = st.
Proof. intros Hv. unfold play, pause, unload. rewrite Hv. auto. Qed.

(** A rejection of the player leaves the component as it was. *)
Lemma rejection_swallowed st e :
  fails = Some e →
  (play fails st).1 = st ∧ (pause fails st).1 = st ∧ (unload fails st).1 = st.
Proof.
  intros ->. unfold play, pause, unload. destruct (videoRef st); auto.
Qed.

Lemma play_when_playing st v :
  videoRef st = Some v → shouldPlay v = true → (play fails st).1 = st.
Proof.
  intros Hv Hp. unfold play. rewrite Hv.
  destruct fails; [reflexivity|].
  destruct st as [r src err ld], v as [sp il].
  unfold setStatusAsync, setVideoRef. simpl in *. by subst.
Qed.

End Handle.

(** C7. Each of [play], [pause] and [unload] of a playback handle resolves
    and never raises, whatever the state of the post and whether or not the
    media player rejects the call: once the ref is cleared by the unmount
    the call is a guarded no-op, a rejection of the player is caught and
    leaves the post unchanged, and [play] on a handle that is already
    playing changes nothing. *)
Theorem handle_calls_are_safe (fails : option string) (st : Post.State) :
  ((Post.play fails st).2 = Post.Fulfilled tt
   ∧ (Post.pause fails st).2 = Post.Fulfilled tt
   ∧ (Post.unload fails st).2 = Post.Fulfilled tt)
  ∧ (Post.videoRef st = None →
     (Post.play fails st).1 = st ∧ (Post.pause fails st).1 = st
     ∧ (Post.unload fails st).1 = st)
  ∧ (is_Some fails →
     (Post.play fails st).1 = st ∧ (Post.pause fails st).1 = st
     ∧ (Post.unload fails st).1 = st)
  ∧ (∀ v, Post.videoRef st = Some v → Post.shouldPlay v = true →
     (Post.play fails st).1 = st).
Proof.
  split.
  { auto using play_fulfils, pause_fulfils, unload_fulfils. }
  split; [apply unmounted_noop|].
  split.
  { intros [e He]. by apply (rejection_swallowed fails st e). }
  intros v. apply play_when_playing.
Qed.

(** ** Source fallback *)

Section Fallback.
Import Types Post.

Variable data : Types.Post.

(** Once the error flag is up, an error gives up: both retries are guarded
    by [!hasError]. *)
Lemma error_after_error st :
  hasError st = true →
  handleVideoError data st
  = {| videoRef := videoRef st; videoSource := videoSource st;
       hasError := true; isLoading := false |}.
Proof.
  intros He. unfold handleVideoError. rewrite He.
  rewrite !andb_false_r. reflexivity.
Qed.

Lemma exhausted_is_terminal st :
  exhausted st = true → handleVideoError data st = st.
Proof.
  unfold exhausted. intros [He Hl]%andb_prop.
  rewrite error_after_error by done.
  destruct st as [r src err ld]. simpl in *.
  apply negb_true_iff in Hl. by subst.
Qed.

(** The first error of a streaming item with a fallback selects the
    fallback. *)
Lemma first_error_selects_fallback st B :
  isStreaming data = Some true → fallbackUrl data = Some B → B ≠ "" →
  hasError st = false →
  handleVideoError data st
  = {| videoRef := videoRef st; videoSource := B;
       hasError := true; isLoading := true |}.
Proof.
  intros Hs Hf HB He. unfold handleVideoError. rewrite Hs, Hf, He. simpl.
  destruct (String.eqb_spec B ""); [done|]. reflexivity.
Qed.

Lemma retries_after_error fuel st :
  hasError st = true →
  (retries fuel data st).1 = [].
Proof.
  intros He. destruct fuel as [|fuel]; [reflexivity|]. simpl.
  by rewrite error_after_error.
Qed.

Lemma retries_streaming fuel v B :
  isStreaming data = Some true → fallbackUrl data = Some B → B ≠ "" →
  retries (S (S fuel)) data (mount data v)
  = ([B], {| videoRef := v; videoSource := B; hasError := true; isLoading := false |}).
Proof.
  intros Hs Hf HB.
  cbn [retries].
  rewrite (first_error_selects_fallback _ B) by done.
  cbn [isLoading videoRef videoSource].
  rewrite error_after_error by done. reflexivity.
Qed.

(** Whatever the item, at most one source is tried after the first. *)
Lemma retries_at_most_one fuel st :
  (length (retries fuel data st).1 ≤ 1)%nat.
Proof.
  destruct fuel as [|fuel]; [simpl; lia|]. simpl.
  destruct (isLoading (handleVideoError data st)) eqn:Hl; [|simpl; lia].
  assert (hasError (handleVideoError data st) = true) as He.
  { unfold handleVideoError. repeat case_match; reflexivity. }
  pose proof (retries_after_error fuel _ He) as Hr.
  destruct (retries fuel data (handleVideoError data st)) as [l fin].
  simpl in *. subst. simpl. lia.
Qed.

End Fallback.

(** C3, as the code has it. For an item that is streaming and has a
    fallback URI [B], with any original URI, when every load fails the
    sources loaded are exactly the item's URI and then [B]; after that the
    item is in the permanent-error state, where a further error changes
    nothing. The original URI is not tried, and no tier is tried twice. *)
Theorem fallback_then_exhausted
    (data : Types.Post) (v : option Post.Video) (B : string) (fuel : nat) :
  Types.isStreaming data = Some true →
  Types.fallbackUrl data = Some B →
  B ≠ "" →
  (2 ≤ fuel)%nat →
  ∃ fin,
    Post.loadAttempts fuel data v = ([Types.uri data; B], fin)
    ∧ Post.exhausted fin = true
    ∧ Post.handleVideoError data fin = fin.
Proof.
  intros Hs Hf HB Hfuel.
  destruct fuel as [|[|fuel]]; [lia|lia|].
  eexists. unfold Post.loadAttempts.
  rewrite (retries_streaming data fuel v B) by done.
  split; [reflexivity|]. split; [reflexivity|].
  by apply exhausted_is_terminal.
Qed.

Lemma fallback_then_exhausted_witness :
  ∃ fin,
    Post.loadAttempts 3 Sample.threeTiers None = ([Sample.tierA; Sample.tierB], fin)
    ∧ Post.exhausted fin = true
    ∧ Post.handleVideoError Sample.threeTiers fin = fin.
Proof.
  apply (fallback_then_exhausted Sample.threeTiers None Sample.tierB 3);
    [reflexivity | reflexivity | discriminate | lia].
Defined.

(** C3 as stated fails: with three distinct tiers that all fail to load,
    the sequence of loads is never streaming, fallback, original, however
    many errors are delivered; the original URI is not loaded at all. *)
Lemma original_tier_never_attempted :
  ¬ (∃ fuel, (Post.loadAttempts fuel Sample.threeTiers None).1
             = [Sample.tierA; Sample.tierB; Sample.tierC]).
Proof.
  intros [fuel Heq].
  pose proof (retries_at_most_one Sample.threeTiers fuel
                (Post.mount Sample.threeTiers None)) as Hlen.
  unfold Post.loadAttempts in Heq.
  destruct (Post.retries fuel Sample.threeTiers (Post.mount Sample.threeTiers None))
    as [l fin].
  simpl in *. injection Heq as ->. simpl in Hlen. lia.
Qed.

(** ** The catalog *)

Section Catalog.
Import Types VideoContext.

Variable headOk : string → option bool.

Lemma fetch_failed_uses_bundle e c :
  videos (fetchVideos headOk (FetchFailed e) c) = VIDEOS.
Proof. reflexivity. Qed.

Lemma fetch_missing_uses_bundle c :
  videos (fetchVideos headOk (FetchOk None) c) = VIDEOS.
Proof. reflexivity. Qed.

Lemma fetch_empty_uses_bundle c :
  videos (fetchVideos headOk (FetchOk (Some [])) c) = VIDEOS.
Proof. reflexivity. Qed.

Lemma fetch_keeps_length apiVideos c :
  apiVideos ≠ [] →
  length (videos (fetchVideos headOk (FetchOk (Some apiVideos)) c)) = length apiVideos.
Proof.
  intros Hne. destruct apiVideos as [|v vs]; [done|].
  simpl. by rewrite length_map.
Qed.

Lemma fetch_nonempty r c : videos (fetchVideos headOk r c) ≠ [].
Proof.
  destruct r as [e|[[|v vs]|]]; simpl; discriminate.
Qed.

End Catalog.

(** C9. When the catalog fetch fails, or yields no list or an empty list,
    the feed's videos are the bundled catalog; and however the fetch
    settles, the videos are not empty once it has completed. *)
Theorem catalog_never_empty
    (headOk : string → option bool) (c : VideoContext.State) :
  (∀ e, VideoContext.videos (VideoContext.fetchVideos headOk (VideoContext.FetchFailed e) c)
        = VideoContext.VIDEOS)
  ∧ VideoContext.videos (VideoContext.fetchVideos headOk (VideoContext.FetchOk (Some [])) c)
    = VideoContext.VIDEOS
  ∧ VideoContext.videos (VideoContext.fetchVideos headOk (VideoContext.FetchOk None) c)
    = VideoContext.VIDEOS
  ∧ length VideoContext.VIDEOS = 7%nat
  ∧ (∀ r, VideoContext.videos (VideoContext.fetchVideos headOk r c) ≠ []).
Proof.
  split; [intros e; apply fetch_failed_uses_bundle|].
  split; [apply fetch_empty_uses_bundle|].
  split; [apply fetch_missing_uses_bundle|].
  split; [reflexivity|].
  intros r. apply fetch_nonempty.
Qed.

(** ** Scroll depth *)

Section ScrollDepth.
Import Types.

Context {H : Type} {R : Types.VideoRef H}.

Lemma updateScrollDepth_max depth c :
  VideoContext.maxScrollDepth (VideoContext.updateScrollDepth depth c)
  = Z.max (VideoContext.maxScrollDepth c) depth.
Proof. reflexivity. Qed.

Lemma ts_onElement_depth (s : FeedTs.State H) element :
  VideoContext.maxScrollDepth (FeedTs.ctx (FeedTs.onElement s element))
  = if isViewable element
    then Z.max (VideoContext.maxScrollDepth (FeedTs.ctx s)) (index element + 1)
    else VideoContext.maxScrollDepth (FeedTs.ctx s).
Proof.
  unfold FeedTs.onElement.
  destruct (isViewable element); [reflexivity|].
  case_match; reflexivity.
Qed.

Lemma ts_callback_depth_mono changed (s : FeedTs.State H) :
  VideoContext.maxScrollDepth (FeedTs.ctx s)
  ≤ VideoContext.maxScrollDepth
      (FeedTs.ctx (FeedTs.onViewableItemsChangedCallback changed s)).
Proof.
  unfold FeedTs.onViewableItemsChangedCallback.
  revert s. induction changed as [|element changed IH]; intros s; simpl; [lia|].
  etrans; [|apply IH].
  rewrite ts_onElement_depth. destruct (isViewable element); lia.
Qed.

Lemma ts_appState_ctx next (s : FeedTs.State H) :
  FeedTs.ctx (FeedTs.handleAppStateChange next s) = FeedTs.ctx s.
Proof.
  unfold FeedTs.handleAppStateChange, FeedTs.callCurrent.
  repeat case_match; reflexivity.
Qed.

Lemma ts_step_depth_mono (s : FeedTs.State H) e :
  e ≠ FeedTs.ResetMetrics →
  VideoContext.maxScrollDepth (FeedTs.ctx s)
  ≤ VideoContext.maxScrollDepth (FeedTs.ctx (FeedTs.step s e)).
Proof.
  intros Hne.
  destruct e as [changed|next| | |videoId postRef|videoId]; cbn [FeedTs.step].
  - apply ts_callback_depth_mono.
  - rewrite ts_appState_ctx. lia.
  - simpl. lia.
  - done.
  - simpl. lia.
  - simpl. lia.
Qed.

Lemma ts_run_depth_mono es (s : FeedTs.State H) :
  Forall (λ e, e ≠ FeedTs.ResetMetrics) es →
  VideoContext.maxScrollDepth (FeedTs.ctx s)
  ≤ VideoContext.maxScrollDepth (FeedTs.ctx (FeedTs.run s es)).
Proof.
  unfold FeedTs.run. intros Hall. revert s.
  induction Hall as [|e es He _ IH]; intros s; simpl; [lia|].
  etrans; [by apply ts_step_depth_mono|apply IH].
Qed.

(** The JavaScript screen: the entries of a batch leave the depth alone,
    and the batch itself takes a maximum. *)
Lemma js_onElement_depth (s : FeedJs.State H) element :
  FeedJs.maxScrollDepth (FeedJs.onElement s element) = FeedJs.maxScrollDepth s.
Proof. unfold FeedJs.onElement. repeat case_match; reflexivity. Qed.

Lemma js_forEach_depth changed (s : FeedJs.State H) :
  FeedJs.maxScrollDepth (foldl FeedJs.onElement s changed) = FeedJs.maxScrollDepth s.
Proof.
  revert s. induction changed as [|element changed IH]; intros s; simpl; [done|].
  by rewrite IH, js_onElement_depth.
Qed.

Lemma js_batch_depth b (s : FeedJs.State H) :
  FeedJs.maxScrollDepth (FeedJs.onViewableItemsChanged b s)
  = match last (FeedJs.viewableItems b) with
    | Some deepest => Z.max (FeedJs.maxScrollDepth s) (index deepest)
    | None => FeedJs.maxScrollDepth s
    end.
Proof.
  unfold FeedJs.onViewableItemsChanged. rewrite js_forEach_depth.
  unfold FeedJs.setVideoCount.
  repeat case_match; simplify_eq/=; reflexivity.
Qed.

Lemma js_step_depth_mono (s : FeedJs.State H) e :
  FeedJs.maxScrollDepth s ≤ FeedJs.maxScrollDepth (FeedJs.step s e).
Proof.
  destruct e as [b|next| |videoId postRef|videoId]; cbn [FeedJs.step].
  - rewrite js_batch_depth. case_match; lia.
  - unfold FeedJs.appStateListener, FeedJs.callCurrent.
    repeat case_match; simpl; lia.
  - simpl. lia.
  - simpl. lia.
  - simpl. lia.
Qed.

Lemma js_run_depth_mono es (s : FeedJs.State H) :
  FeedJs.maxScrollDepth s ≤ FeedJs.maxScrollDepth (FeedJs.run s es).
Proof.
  unfold FeedJs.run. revert s.
  induction es as [|e es IH]; intros s; simpl; [lia|].
  etrans; [apply js_step_depth_mono|apply IH].
Qed.

End ScrollDepth.

(** C8. Every scroll-depth update leaves [maxScrollDepth] at the maximum of
    its previous value and the reported depth; along any sequence of events
    of the feed that contains no reset (viewability batches, application
    state changes, survey submissions, posts mounting and unmounting) the
    recorded depth never decreases, in the TypeScript screen and in the
    JavaScript screen alike. *)
Theorem maxScrollDepth_never_decreases
    {H : Type} {R : Types.VideoRef H}
    (ts : FeedTs.State H) (es : list (FeedTs.Event H))
    (js : FeedJs.State H) (es' : list (FeedJs.Event H)) :
  Forall (λ e, e ≠ FeedTs.ResetMetrics) es →
  (∀ depth c,
     VideoContext.maxScrollDepth (VideoContext.updateScrollDepth depth c)
     = Z.max (VideoContext.maxScrollDepth c) depth)
  ∧ (∀ b, FeedJs.maxScrollDepth (FeedJs.onViewableItemsChanged b js)
          = match last (FeedJs.viewableItems b) with
            | Some deepest => Z.max (FeedJs.maxScrollDepth js) (Types.index deepest)
            | None => FeedJs.maxScrollDepth js
            end)
  ∧ VideoContext.maxScrollDepth (FeedTs.ctx ts)
    ≤ VideoContext.maxScrollDepth (FeedTs.ctx (FeedTs.run ts es))
  ∧ FeedJs.maxScrollDepth js ≤ FeedJs.maxScrollDepth (FeedJs.run js es').
Proof.
  intros Hes. split; [intros; apply updateScrollDepth_max|].
  split; [intros; apply js_batch_depth|].
  split; [by apply ts_run_depth_mono|apply js_run_depth_mono].
Qed.

Lemma maxScrollDepth_never_decreases_witness :
  VideoContext.maxScrollDepth
    (FeedTs.ctx (FeedTs.initial Types.active VideoContext.initial : FeedTs.State Post.State))
  ≤ VideoContext.maxScrollDepth
      (FeedTs.ctx (FeedTs.run (FeedTs.initial Types.active VideoContext.initial)
                     Sample.tsEvents)).
Proof.
  refine (proj1 (proj2 (proj2
    (maxScrollDepth_never_decreases
       (FeedTs.initial Types.active VideoContext.initial) Sample.tsEvents
       FeedJs.initial Sample.jsEvents _)))).
  repeat constructor; discriminate.
Defined.

(** ** Application state changes, TypeScript screen *)

Section AppState.
Import Types.

Context {H : Type} {R : Types.VideoRef H}.

Implicit Types s : FeedTs.State H.

(** Replacing a stored handle by its image is [alter]. *)
Lemma alter_present (m : gmap string H) (f : H → H) k h :
  m !! k = Some h → alter f k m = <[k := f h]> m.
Proof.
  intros Hk. apply map_eq. intros j.
  destruct (decide (k = j)) as [->|Hne].
  - by rewrite lookup_alter_eq, lookup_insert_eq, Hk.
  - by rewrite lookup_alter_ne, lookup_insert_ne.
Qed.

Lemma alter_absent (m : gmap string H) (f : H → H) k :
  m !! k = None → alter f k m = m.
Proof.
  intros Hk. apply map_eq. intros j.
  destruct (decide (k = j)) as [->|Hne].
  - by rewrite lookup_alter_eq, Hk.
  - by rewrite lookup_alter_ne.
Qed.

Lemma truthy_nonempty (k : string) : k ≠ "" → Js.truthyS (Some k) = true.
Proof. intros Hk. simpl. by destruct (String.eqb_spec k ""). Qed.




Lemma ts_appState_recorded next s :
  FeedTs.appStateRef (FeedTs.handleAppStateChange next s) = next
  ∧ FeedTs.lastViewedRef (FeedTs.handleAppStateChange next s) = FeedTs.lastViewedRef s.
Proof.
  unfold FeedTs.handleAppStateChange, FeedTs.callCurrent.
  repeat case_match; auto.
Qed.

End AppState.



(** ** Play and pause within a batch *)

Section BatchCommands.
Import Types.

Context {H : Type} {R : Types.VideoRef H}.

Lemma js_onElement_mediaRefs (s : FeedJs.State H) element :
  FeedJs.mediaRefs (FeedJs.onElement s element)
  = alter (Observe.commandOf element) (key element) (FeedJs.mediaRefs s).
Proof.
  unfold FeedJs.onElement, Observe.commandOf.
  destruct (FeedJs.mediaRefs s !! key element) as [cell|] eqn:Hcell.
  - rewrite (alter_present _ _ _ cell) by done.
    destruct (isViewable element); [reflexivity|].
    case_match; reflexivity.
  - by rewrite alter_absent.
Qed.

Lemma js_forEach_mediaRefs changed (s : FeedJs.State H) :
  FeedJs.mediaRefs (foldl FeedJs.onElement s changed)
  = Observe.commanded (FeedJs.mediaRefs s) changed.
Proof.
  unfold Observe.commanded. revert s.
  induction changed as [|element changed IH]; intros s; simpl; [done|].
  by rewrite IH, js_onElement_mediaRefs.
Qed.

Lemma js_batch_mediaRefs b (s : FeedJs.State H) :
  FeedJs.mediaRefs (FeedJs.onViewableItemsChanged b s)
  = Observe.commanded (FeedJs.mediaRefs s) (FeedJs.changed b).
Proof.
  unfold FeedJs.onViewableItemsChanged. rewrite js_forEach_mediaRefs.
  f_equal. unfold FeedJs.setVideoCount.
  repeat case_match; reflexivity.
Qed.

Lemma ts_onElement_mediaRefs (s : FeedTs.State H) element :
  FeedTs.mediaRefs (FeedTs.onElement s element)
  = alter (Observe.commandOf element) (key element) (FeedTs.mediaRefs s).
Proof.
  unfold FeedTs.onElement, Observe.commandOf.
  destruct (isViewable element); [reflexivity|].
  case_match; reflexivity.
Qed.

Lemma ts_batch_mediaRefs changed (s : FeedTs.State H) :
  FeedTs.mediaRefs (FeedTs.onViewableItemsChangedCallback changed s)
  = Observe.commanded (FeedTs.mediaRefs s) changed.
Proof.
  unfold Observe.commanded, FeedTs.onViewableItemsChangedCallback. revert s.
  induction changed as [|element changed IH]; intros s; simpl; [done|].
  by rewrite IH, ts_onElement_mediaRefs.
Qed.

(** An item the batch never reports keeps its handle. *)
Lemma commanded_other changed (m : gmap string H) k :
  Forall (λ element, key element ≠ k) changed →
  Observe.commanded m changed !! k = m !! k.
Proof.
  unfold Observe.commanded. intros Hall. revert m.
  induction Hall as [|element changed Hne _ IH]; intros m; simpl; [done|].
  by rewrite IH, lookup_alter_ne.
Qed.

(** An item the batch reports only as viewable is played once per report
    and never paused. *)
Lemma commanded_viewable changed (m : gmap string H) k h :
  m !! k = Some h →
  Forall (λ element, key element = k → isViewable element = true) changed →
  Observe.commanded m changed !! k
  = Some (Nat.iter (length (filter (λ element, key element = k) changed)) play h).
Proof.
  unfold Observe.commanded. intros Hk Hall. revert m h Hk.
  induction Hall as [|element changed Hv _ IH]; intros m h Hk; simpl; [done|].
  destruct (decide (key element = k)) as [Heq|Hne].
  - rewrite filter_cons_True by done.
    rewrite (IH _ (play h)).
    + cbn [length]. by rewrite Nat.iter_succ_r.
    + unfold Observe.commandOf. rewrite (Hv Heq), Heq.
      by rewrite lookup_alter_eq, Hk.
  - rewrite filter_cons_False by done.
    apply IH. by rewrite lookup_alter_ne.
Qed.

End BatchCommands.

(** C2, as the code has it. A batch sends each mounted item it reports one
    command per report, [play] for a viewable report and [pause] for a
    non-viewable one, in the order of the reports, and nothing else. So a
    mounted item that the batch reports only as viewable has been played and
    not paused when the batch completes, however many other items the same
    batch plays; only items reported non-viewable are paused. *)
Theorem batch_plays_each_viewable_item
    {H : Type} {R : Types.VideoRef H}
    (s : FeedJs.State H) (b : FeedJs.Batch) (k : string) (h : H) :
  FeedJs.mediaRefs s !! k = Some h →
  Forall (λ element, Types.key element = k → Types.isViewable element = true)
    (FeedJs.changed b) →
  FeedJs.mediaRefs (FeedJs.onViewableItemsChanged b s)
  = foldl (λ m element, alter (Observe.commandOf element) (Types.key element) m)
      (FeedJs.mediaRefs s) (FeedJs.changed b)
  ∧ FeedJs.mediaRefs (FeedJs.onViewableItemsChanged b s) !! k
    = Some (Nat.iter
              (length (filter (λ element, Types.key element = k) (FeedJs.changed b)))
              Types.play h).
Proof.
  intros Hk Hall. rewrite js_batch_mediaRefs.
  split; [reflexivity|]. by apply commanded_viewable.
Qed.

Lemma batch_plays_each_viewable_item_witness :
  FeedJs.mediaRefs
    (FeedJs.onViewableItemsChanged Sample.enter12
       (FeedJs.run FeedJs.initial Sample.twoMounted)) !! "1"
  = Some (Types.play Sample.paused).
Proof.
  refine (proj2 (batch_plays_each_viewable_item
                   (FeedJs.run FeedJs.initial Sample.twoMounted)
                   Sample.enter12 "1" Sample.paused _ _)).
  - reflexivity.
  - repeat constructor.
Defined.

(** C2 as stated fails: when items 1 and 2, both mounted, are reported
    viewable in one batch, both are playing when the batch completes. *)
Lemma two_items_left_playing :
  Observe.playingIds
    (FeedJs.mediaRefs
       (FeedJs.run FeedJs.initial
          (Sample.twoMounted ++ [FeedJs.ViewableItemsChanged Sample.enter12])))
  = {[ "1"; "2" ]}
  ∧ ¬ (size (Observe.playingIds
         (FeedJs.mediaRefs
            (FeedJs.run FeedJs.initial
               (Sample.twoMounted ++ [FeedJs.ViewableItemsChanged Sample.enter12]))))
       ≤ 1)%nat.
Proof.
  assert (Observe.playingIds
            (FeedJs.mediaRefs
               (FeedJs.run FeedJs.initial
                  (Sample.twoMounted ++ [FeedJs.ViewableItemsChanged Sample.enter12])))
          = {[ "1"; "2" ]}) as Heq by (by vm_compute).
  split; [exact Heq|].
  rewrite Heq. rewrite size_union by set_solver.
  rewrite !size_singleton. lia.
Qed.

(** ** The survey trigger of the JavaScript screen *)

Section Survey.
Import Types.

Context {H : Type} {R : Types.VideoRef H}.

Implicit Types s : FeedJs.State H.







End Survey.



(** The TypeScript screen only counts: its batches never touch the survey
    flag, whatever the count. *)
Lemma ts_batch_keeps_survey {H : Type} {R : Types.VideoRef H}
    changed (s : FeedTs.State H) :
  FeedTs.showSurvey (FeedTs.onViewableItemsChangedCallback changed s)
  = FeedTs.showSurvey s.
Proof.
  unfold FeedTs.onViewableItemsChangedCallback. revert s.
  induction changed as [|element changed IH]; intros s; simpl; [done|].
  rewrite IH. unfold FeedTs.onElement. repeat case_match; reflexivity.
Qed.

(** The JavaScript listener keeps no previous state: every [active] event
    plays the current handle. *)
Lemma js_active_always_plays {H : Type} {R : Types.VideoRef H}
    (s : FeedJs.State H) cid h :
  Types.contentId (FeedJs.lastViewedRef s) = Some cid → cid ≠ "" →
  FeedJs.mediaRefs s !! cid = Some h →
  FeedJs.mediaRefs (FeedJs.appStateListener Types.active s)
  = <[cid := Types.play h]> (FeedJs.mediaRefs s).
Proof.
  intros Hc Hne Hm. unfold FeedJs.appStateListener.
  repeat case_bool_decide; try done. cbn [orb].
  unfold FeedJs.callCurrent. rewrite Hc, truthy_nonempty by done.
  cbn [FeedJs.mediaRefs FeedJs.setMediaRefs].
  by apply alter_present.
Qed.

(** ** Time spent *)

Section TimeSpent.
Import Types.

Context {H : Type} {R : Types.VideoRef H}.

Implicit Types s : FeedTs.State H.

Lemma ts_viewable_report s r :
  isViewable r = true →
  FeedTs.lastViewedRef (FeedTs.onElement s r)
  = {| startTime := Some (now r); contentId := Some (key r) |}
  ∧ VideoContext.timeSpent (FeedTs.ctx (FeedTs.onElement s r))
    = VideoContext.timeSpent (FeedTs.ctx s).
Proof. intros Hv. unfold FeedTs.onElement. rewrite Hv. auto. Qed.

Lemma ts_hidden_report_idle s r :
  isViewable r = false →
  FeedTs.lastViewedRef s = noView →
  FeedTs.lastViewedRef (FeedTs.onElement s r) = noView
  ∧ VideoContext.timeSpent (FeedTs.ctx (FeedTs.onElement s r))
    = VideoContext.timeSpent (FeedTs.ctx s).
Proof.
  intros Hv Hl. unfold FeedTs.onElement. rewrite Hv. simpl. rewrite Hl. auto.
Qed.

Lemma ts_hidden_report_other s r k t :
  isViewable r = false →
  FeedTs.lastViewedRef s = {| startTime := Some t; contentId := Some k |} →
  k ≠ key r →
  FeedTs.lastViewedRef (FeedTs.onElement s r) = FeedTs.lastViewedRef s
  ∧ VideoContext.timeSpent (FeedTs.ctx (FeedTs.onElement s r))
    = VideoContext.timeSpent (FeedTs.ctx s).
Proof.
  intros Hv Hl Hne. unfold FeedTs.onElement. rewrite Hv. simpl. rewrite Hl. simpl.
  rewrite bool_decide_eq_false_2 by congruence.
  rewrite andb_false_r. auto.
Qed.

Lemma ts_hidden_report_closes s r t :
  isViewable r = false →
  t ≠ 0 →
  FeedTs.lastViewedRef s = {| startTime := Some t; contentId := Some (key r) |} →
  FeedTs.lastViewedRef (FeedTs.onElement s r) = noView
  ∧ VideoContext.timeSpent (FeedTs.ctx (FeedTs.onElement s r))
    = <[key r := default 0 (VideoContext.timeSpent (FeedTs.ctx s) !! key r)
                  + (now r - t)]>
        (VideoContext.timeSpent (FeedTs.ctx s)).
Proof.
  intros Hv Ht Hl. unfold FeedTs.onElement. rewrite Hv. simpl. rewrite Hl. simpl.
  rewrite bool_decide_eq_true_2 by done.
  destruct (Z.eqb_spec t 0); [done|]. simpl. auto.
Qed.

(** The time recorded for an item grows, over any reports, by the total
    duration of the sessions of that item that the reports close. *)
Lemma ts_spent_closed_sessions reports s itemId :
  Observe.holdsSession (FeedTs.lastViewedRef s) →
  Forall (λ r, now r ≠ 0) reports →
  default 0
    (VideoContext.timeSpent
       (FeedTs.ctx (FeedTs.onViewableItemsChangedCallback reports s)) !! itemId)
  = default 0 (VideoContext.timeSpent (FeedTs.ctx s) !! itemId)
    + Observe.reportClosedTime itemId (Observe.openSession (FeedTs.lastViewedRef s)) reports.
Proof.
  unfold FeedTs.onViewableItemsChangedCallback.
  intros Hs Hall. revert s Hs.
  induction Hall as [|r reports Hr _ IH]; intros s Hs; cbn [foldl Observe.reportClosedTime].
  { lia. }
  destruct (isViewable r) eqn:Hv.
  - destruct (ts_viewable_report s r Hv) as [Hl Ht].
    rewrite IH by (right; eauto). by rewrite Hl, Ht.
  - destruct Hs as [Hn | (k & t & Ht0 & Hl)].
    + destruct (ts_hidden_report_idle s r Hv Hn) as [Hl' Ht'].
      rewrite IH by (by left). by rewrite Hl', Ht', Hn.
    + rewrite Hl. cbn [Observe.openSession contentId startTime].
      destruct (decide (k = key r)) as [->|Hne].
      * destruct (ts_hidden_report_closes s r t Hv Ht0 Hl) as [Hl' Ht'].
        rewrite IH by (by left). rewrite Hl', Ht'.
        rewrite bool_decide_eq_true_2 by done.
        cbn [Observe.openSession contentId startTime noView].
        destruct (decide (key r = itemId)) as [->|Hid].
        -- rewrite bool_decide_eq_true_2 by done.
           rewrite lookup_insert_eq. simpl. lia.
        -- rewrite bool_decide_eq_false_2 by done.
           rewrite lookup_insert_ne by done. lia.
      * destruct (ts_hidden_report_other s r k t Hv Hl Hne) as [Hl' Ht'].
        rewrite IH by (rewrite Hl', Hl; right; eauto).
        rewrite bool_decide_eq_false_2 by done.
        by rewrite Hl', Ht', Hl.
Qed.

(** On the TypeScript screen the visit of item 1 from t = 1000 to t = 2200,
    ended by a report of its own, is recorded as 1200 ms. *)
Lemma ts_leave_credits_once :
  VideoContext.timeSpent
    (FeedTs.ctx
       (FeedTs.run (FeedTs.initial active VideoContext.initial)
          [FeedTs.RefAttach "1" Sample.paused;
           FeedTs.ViewableItemsChanged (FeedJs.changed Sample.enter1);
           FeedTs.ViewableItemsChanged (FeedJs.changed Sample.leave1)])) !! "1"
  = Some 1200.
Proof. by vm_compute. Qed.

(** When the batch that ends the visit reports the next item first, the
    TypeScript screen has replaced the session before the report of item 1
    arrives, and records nothing for item 1. *)
Lemma ts_replaced_session_dropped :
  VideoContext.timeSpent
    (FeedTs.ctx
       (FeedTs.run (FeedTs.initial active VideoContext.initial)
          [FeedTs.RefAttach "1" Sample.paused;
           FeedTs.ViewableItemsChanged (FeedJs.changed Sample.enter1);
           FeedTs.ViewableItemsChanged
             [Sample.tok "2" true 1 2200; Sample.tok "1" false 0 2200]])) !! "1"
  = None.
Proof. by vm_compute. Qed.

End TimeSpent.

(** C1 on the JavaScript screen. Item 1, mounted, is viewed from t = 1000
    and leaves the screen at t = 2200 with no other item viewable. Its one
    session lasted 1200 ms. The batch that reports it non-viewable records
    the session twice, once at the top of the handler and once more in the
    loop over the changed entries, so that 2400 ms are recorded; the
    session is not cleared either, and the next batch, at t = 3000, records
    it once more from the same start. *)
Theorem js_leave_credits_twice :
  FeedJs.timeSpent
    (FeedJs.run FeedJs.initial (take 2 Sample.jsEvents)) !! "1" = None
  ∧ FeedJs.lastViewedRef (FeedJs.run FeedJs.initial (take 2 Sample.jsEvents))
    = {| Types.startTime := Some 1000; Types.contentId := Some "1" |}
  ∧ FeedJs.timeSpent (FeedJs.run FeedJs.initial Sample.jsEvents) !! "1"
    = Some (2 * (2200 - 1000))
  ∧ FeedJs.lastViewedRef (FeedJs.run FeedJs.initial Sample.jsEvents)
    = {| Types.startTime := Some 1000; Types.contentId := Some "1" |}
  ∧ FeedJs.timeSpent
      (FeedJs.run FeedJs.initial
         (Sample.jsEvents
          ++ [FeedJs.ViewableItemsChanged
                {| FeedJs.viewableItems := [Sample.tok "2" true 1 3000];
                   FeedJs.changed := [Sample.tok "2" true 1 3000];
                   FeedJs.currentTime := 3000 |}])) !! "1"
    = Some (2 * (2200 - 1000) + (3000 - 1000)).
Proof. repeat split; by vm_compute. Qed.

(** ** Reset *)

Section Reset.
Import Types.

Context {H : Type} {R : Types.VideoRef H}.



End Reset.


(** ** [processVideoUrls] and its argument *)

Section Frame.
Import Api.

Implicit Types h : store.

Lemma setProp_other h p k v l : l ≠ p → setProp h p k v !! l = h !! l.
Proof. intros Hne. unfold setProp. by rewrite lookup_alter_ne. Qed.

Lemma agreesOff_alloc h p o : agreesOff p h (<[p := o]> h).
Proof. intros l Hne. by rewrite lookup_insert_ne. Qed.

Lemma agreesOff_setProp h h' p k v :
  agreesOff p h h' → agreesOff p h (setProp h' p k v).
Proof. intros Hag l Hne. rewrite setProp_other by done. by apply Hag. Qed.

Lemma processVideoUrls_agrees h post :
  agreesOff (fresh (dom h)) h (processVideoUrls h post).1.
Proof.
  unfold processVideoUrls.
  destruct (truthy post); simpl; [|by intros l _].
  repeat case_match; simpl;
    repeat apply agreesOff_setProp; apply agreesOff_alloc.
Qed.

Lemma fresh_unused h : h !! fresh (dom h) = None.
Proof. apply not_elem_of_dom. apply is_fresh. Qed.



(** The sample post: the copy gets the full streaming URL, the same URL as
    [streamingUrl], and the original URL as fallback. *)
Lemma processVideoUrls_streaming_sample :
  processVideoUrls Sample.oneObject (VObj 1)
  = (<[2%positive :=
         {[ "id" := VNum 1;
            "uri" := VStr "http://192.168.1.10:3000/api/stream/video/1.mp4";
            "original_url" := VStr "https://origin.example.org/original/1.mp4";
            "streamingUrl" := VStr "http://192.168.1.10:3000/api/stream/video/1.mp4";
            "fallbackUrl" := VStr "https://origin.example.org/original/1.mp4" ]}]>
       Sample.oneObject,
     inr (VObj 2)).
Proof. by vm_compute. Qed.

End Frame.



(** * Further properties *)

(** ** Source fallback and playback status *)

Section Retry.
Import Types Post PostStatus.

Variable data : Types.Post.

Lemma truthyS_Some (o : option string) :
  Js.truthyS o = true → o = Some (default "" o).
Proof. destruct o; [done|discriminate]. Qed.

Lemma first_error_choice v :
  handleVideoError data (mount data v)
  = if Js.truthyB (isStreaming data) && Js.truthyS (fallbackUrl data) then
      {| videoRef := v; videoSource := default "" (fallbackUrl data);
         hasError := true; isLoading := true |}
    else if Js.truthyS (originalUri data)
            && negb (bool_decide (originalUri data = Some (uri data))) then
      {| videoRef := v; videoSource := default "" (originalUri data);
         hasError := true; isLoading := true |}
    else
      {| videoRef := v; videoSource := uri data;
         hasError := true; isLoading := false |}.
Proof.
  unfold handleVideoError, mount. cbn [hasError videoSource videoRef negb].
  rewrite !andb_true_r. reflexivity.
Qed.



End Retry.

(** X1. When every load fails, what is loaded after the item's own URI is
    settled by the first error alone: the fallback URI for a streaming item
    that has one; otherwise the original URI when there is one and it
    differs from the item's URI; otherwise nothing. In each case the item
    then is in the permanent-error state. *)
Theorem retry_choice (data : Types.Post) (v : option Post.Video) (fuel : nat) :
  (2 ≤ fuel)%nat →
  (Post.loadAttempts fuel data v).1
  = (if Js.truthyB (Types.isStreaming data) && Js.truthyS (Types.fallbackUrl data)
     then [Types.uri data; default "" (Types.fallbackUrl data)]
     else if Js.truthyS (Types.originalUri data)
             && negb (bool_decide (Types.originalUri data = Some (Types.uri data)))
     then [Types.uri data; default "" (Types.originalUri data)]
     else [Types.uri data])
  ∧ Post.exhausted (Post.loadAttempts fuel data v).2 = true.
Proof.
  intros Hfuel. destruct fuel as [|[|fuel]]; [lia|lia|].
  unfold Post.loadAttempts. cbn [Post.retries].
  rewrite first_error_choice.
  destruct (Js.truthyB (Types.isStreaming data) && Js.truthyS (Types.fallbackUrl data)).
  - cbn [Post.isLoading]. rewrite error_after_error by done. by cbn.
  - destruct (Js.truthyS (Types.originalUri data)
              && negb (bool_decide (Types.originalUri data = Some (Types.uri data)))).
    + cbn [Post.isLoading]. rewrite error_after_error by done. by cbn.
    + by cbn.
Qed.

Lemma retry_choice_witness :
  (Post.loadAttempts 2 Cases.external None).1 = [Types.uri Cases.external]
  ∧ Post.exhausted (Post.loadAttempts 2 Cases.external None).2 = true.
Proof.
  apply (retry_choice Cases.external None 2). lia.
Defined.



(** X3. A status update of a loaded, non-buffering player clears the error
    flag, and with it the guard on the retries: for a streaming item with a
    fallback, the next error selects the fallback again, whatever is being
    played and however often this has happened before. *)
Theorem success_rearms_fallback
    (data : Types.Post) (st : Post.State) (B : string) :
  Types.isStreaming data = Some true →
  Types.fallbackUrl data = Some B →
  B ≠ "" →
  Post.handleVideoError data
    (PostStatus.handlePlaybackStatusUpdate data (PostStatus.Loaded false) st)
  = {| Post.videoRef := Post.videoRef st; Post.videoSource := B;
       Post.hasError := true; Post.isLoading := true |}.
Proof.
  intros Hs Hf HB.
  by rewrite (first_error_selects_fallback data _ B).
Qed.

Lemma success_rearms_fallback_witness :
  Post.videoSource
    (PostStatus.runVideo Sample.threeTiers (Post.mount Sample.threeTiers None)
       [PostStatus.OnError;
        PostStatus.OnPlaybackStatusUpdate (PostStatus.Loaded false);
        PostStatus.OnError;
        PostStatus.OnPlaybackStatusUpdate (PostStatus.Loaded false);
        PostStatus.OnError])
  = Sample.tierB.
Proof.
  unfold PostStatus.runVideo. cbn [foldl PostStatus.onVideoEvent].
  by rewrite (success_rearms_fallback Sample.threeTiers _ Sample.tierB).
Defined.

(** ** Calls on the playback handle *)

Section Calls.
Import Post PostStatus.

Lemma call_mounted c st v :
  videoRef st = Some v →
  ∃ v', videoRef (call c st) = Some v'
        ∧ shouldPlay v' = match c.2 with None => c.1 | Some _ => shouldPlay v end.
Proof.
  intros Hv. destruct c as [[|] [e|]]; unfold call, play, pause; cbn [fst snd];
    rewrite Hv; cbn; eauto.
Qed.

Lemma runCalls_mounted cs st v :
  videoRef st = Some v →
  ∃ v', videoRef (runCalls cs st) = Some v'
        ∧ shouldPlay v'
          = match last (filter (λ c, c.2 = None) cs) with
            | Some c => c.1
            | None => shouldPlay v
            end.
Proof.
  intros Hv. induction cs as [|c cs IH] using rev_ind.
  { exists v. by split. }
  destruct IH as (v1 & Hv1 & Hp1).
  unfold runCalls in *. rewrite foldl_app. cbn [foldl].
  destruct (call_mounted c _ v1 Hv1) as (v2 & Hv2 & Hp2).
  exists v2. split; [exact Hv2|].
  rewrite filter_app, Hp2.
  destruct c as [b [e|]]; cbn [fst snd].
  - rewrite filter_cons_False by done. rewrite filter_nil, app_nil_r. exact Hp1.
  - rewrite filter_cons_True by done. rewrite filter_nil. by rewrite last_snoc.
Qed.

End Calls.

(** X4. On a mounted post the last call the player accepted decides: after
    any sequence of [play] and [pause] calls, of which the player may reject
    any, the post is playing exactly when the last accepted call was
    [play]; if none was accepted it plays as before. *)
Theorem last_accepted_call_wins
    (cs : list (bool * option string)) (st : Post.State) (v : Post.Video) :
  Post.videoRef st = Some v →
  Observe.isPlaying (PostStatus.runCalls cs st)
  = match last (filter (λ c, c.2 = None) cs) with
    | Some c => c.1
    | None => Post.shouldPlay v
    end.
Proof.
  intros Hv. destruct (runCalls_mounted cs st v Hv) as (v' & Hv' & Hp).
  unfold Observe.isPlaying. by rewrite Hv'.
Qed.

Lemma last_accepted_call_wins_witness :
  Observe.isPlaying
    (PostStatus.runCalls
       [(true, None); (false, None); (true, Some "player released")] Sample.paused)
  = false.
Proof.
  apply (last_accepted_call_wins
           [(true, None); (false, None); (true, Some "player released")]
           Sample.paused {| Post.shouldPlay := false; Post.isLoaded := true |}).
  reflexivity.
Defined.


(** ** The best URL of a post *)

Section BestUrl.
Import Types Api.

Variable headOk : string → option bool.

Lemma check_confirmed videoId u :
  checkStreamingAvailability headOk videoId = Some u →
  u = String.append API_BASE_URL (String.append "/stream/video/" videoId)
  ∧ headOk u = Some true.
Proof.
  unfold checkStreamingAvailability. intros Hc.
  destruct (headOk _) as [[|]|] eqn:Hh; simplify_eq. done.
Qed.

Lemma check_unconfirmed videoId :
  (∀ u, headOk u ≠ Some true) →
  checkStreamingAvailability headOk videoId = None.
Proof.
  intros Hno. unfold checkStreamingAvailability.
  destruct (headOk _) as [[|]|] eqn:Hh; try done. by apply Hno in Hh.
Qed.

Lemma endpoint_includes_stream videoId :
  Js.includes (String.append API_BASE_URL (String.append "/stream/video/" videoId))
    "/stream/" = true.
Proof.
  unfold Js.includes.
  destruct (String.index 0 "/stream/" _) eqn:E; [done|].
  exfalso. eapply (String.index_correct3 0 28) in E; [|done|lia].
  apply E. reflexivity.
Qed.

Lemma best_by_id post :
  Js.truthyS (streamingUrl post) = false →
  id post ≠ 0 →
  headOk (String.append API_BASE_URL
            (String.append "/stream/video/" (pretty (id post)))) = Some true →
  getBestVideoUrl headOk post
  = String.append API_BASE_URL (String.append "/stream/video/" (pretty (id post))).
Proof.
  intros Hs Hid Hok. unfold getBestVideoUrl. rewrite Hs.
  destruct (Z.eqb_spec (id post) 0); [done|]. cbn [negb].
  unfold checkStreamingAvailability. by rewrite Hok.
Qed.

Lemma best_unconfirmed post :
  (∀ u, headOk u ≠ Some true) →
  Js.truthyS (streamingUrl post) = false →
  getBestVideoUrl headOk post
  = if Js.truthyS (fallbackUrl post) then default "" (fallbackUrl post) else uri post.
Proof.
  intros Hno Hs. unfold getBestVideoUrl. rewrite Hs.
  rewrite !check_unconfirmed by done.
  by repeat case_match.
Qed.

End BestUrl.

(** X5. [getBestVideoUrl] never invents a streaming endpoint: what it
    returns is the streaming URL the post already carries, or an endpoint
    under [/stream/video/] for which the [HEAD] request answered ok, or
    else the post's fallback URL, or its URI when it has no fallback. *)
Theorem best_url_is_confirmed (headOk : string → option bool) (post : Types.Post) :
  Types.streamingUrl post = Some (Api.getBestVideoUrl headOk post)
  ∨ (headOk (Api.getBestVideoUrl headOk post) = Some true
     ∧ ∃ videoId,
         Api.getBestVideoUrl headOk post
         = String.append Api.API_BASE_URL (String.append "/stream/video/" videoId))
  ∨ Api.getBestVideoUrl headOk post
    = (if Js.truthyS (Types.fallbackUrl post)
       then default "" (Types.fallbackUrl post) else Types.uri post).
Proof.
  unfold Api.getBestVideoUrl.
  destruct (Js.truthyS (Types.streamingUrl post)) eqn:Hs.
  { left. by apply truthyS_Some. }
  destruct (if negb (Types.id post =? 0) then _ else None) as [u|] eqn:H1.
  { right; left. destruct (negb (Types.id post =? 0)); [|done].
    apply check_confirmed in H1 as [-> Hok]. eauto. }
  destruct (if _ && _ then _ else None) as [u|] eqn:H2.
  { right; left. destruct (_ && _); [|done].
    apply check_confirmed in H2 as [-> Hok]. eauto. }
  by right; right.
Qed.

(** X6. With no streaming URL on the post and no endpoint answering ok
    (offline, or nothing transcoded), the best URL is the post's fallback
    URL, or its URI when it has no fallback: the probes never fail the
    call. *)
Theorem best_url_without_streaming
    (headOk : string → option bool) (post : Types.Post) :
  (∀ u, headOk u ≠ Some true) →
  Js.truthyS (Types.streamingUrl post) = false →
  Api.getBestVideoUrl headOk post
  = (if Js.truthyS (Types.fallbackUrl post)
     then default "" (Types.fallbackUrl post) else Types.uri post).
Proof. apply best_unconfirmed. Qed.

Lemma best_url_without_streaming_witness :
  Api.getBestVideoUrl Cases.offline Cases.external = Types.uri Cases.external.
Proof.
  apply (best_url_without_streaming Cases.offline Cases.external);
    [discriminate | reflexivity].
Defined.

(** ** Fetched videos and their fallback *)

Section Fetched.
Import Types VideoContext.

Variable headOk : string → option bool.

Lemma processVideo_keeps video :
  id (processVideo headOk video) = id video
  ∧ originalUri (processVideo headOk video) = Some (uri video)
  ∧ fallbackUrl (processVideo headOk video) = fallbackUrl video
  ∧ likes (processVideo headOk video) = likes video.
Proof. by repeat split. Qed.


End Fetched.



(** X8. When the endpoint for a post's id answers ok, the fetched video
    plays from that endpoint and is marked as streaming; if the post has a
    fallback URL, a load that then fails at the endpoint is followed by one
    load of the fallback and then by the permanent-error state. *)
Theorem probed_video_streams_then_falls_back
    (headOk : string → option bool) (video : Types.Post)
    (v : option Post.Video) (B : string) :
  Js.truthyS (Types.streamingUrl video) = false →
  Types.id video ≠ 0 →
  headOk (String.append Api.API_BASE_URL
            (String.append "/stream/video/" (pretty (Types.id video)))) = Some true →
  Types.fallbackUrl video = Some B →
  B ≠ "" →
  Types.uri (VideoContext.processVideo headOk video)
  = String.append Api.API_BASE_URL
      (String.append "/stream/video/" (pretty (Types.id video)))
  ∧ Types.isStreaming (VideoContext.processVideo headOk video) = Some true
  ∧ (Post.loadAttempts 2 (VideoContext.processVideo headOk video) v).1
    = [String.append Api.API_BASE_URL
         (String.append "/stream/video/" (pretty (Types.id video))); B]
  ∧ Post.exhausted (Post.loadAttempts 2 (VideoContext.processVideo headOk video) v).2
    = true.
Proof.
  intros Hs Hid Hok Hf HB.
  assert (Types.uri (VideoContext.processVideo headOk video)
          = String.append Api.API_BASE_URL
              (String.append "/stream/video/" (pretty (Types.id video)))) as Huri.
  { cbn [VideoContext.processVideo Types.uri]. by apply best_by_id. }
  assert (Types.isStreaming (VideoContext.processVideo headOk video) = Some true) as Hst.
  { cbn [VideoContext.processVideo Types.isStreaming].
    rewrite (best_by_id headOk video) by done.
    by rewrite endpoint_includes_stream. }
  split; [exact Huri|]. split; [exact Hst|].
  unfold Post.loadAttempts.
  rewrite (retries_streaming (VideoContext.processVideo headOk video) 0 v B Hst Hf HB).
  by rewrite Huri.
Qed.

Lemma probed_video_streams_then_falls_back_witness :
  (Post.loadAttempts 2 (VideoContext.processVideo Cases.streams3 Cases.external) None).1
  = ["http://192.168.1.10:3000/api/stream/video/3"; Types.uri Cases.external].
Proof.
  refine (proj1 (proj2 (proj2
    (probed_video_streams_then_falls_back Cases.streams3 Cases.external None
       (Types.uri Cases.external) _ _ _ _ _)))).
  - reflexivity.
  - discriminate.
  - reflexivity.
  - reflexivity.
  - discriminate.
Defined.

(** X9. A fetched video for which no endpoint answers ok, and whose
    fallback URL is its own URI (as [processVideoUrls] sets it for every
    external URL) or is missing, is not marked as streaming as long as its
    URI does not contain [/stream/], and has nothing to fall back to: its
    first load error is already the permanent-error state, with no second
    load. *)
Theorem external_video_has_no_retry
    (headOk : string → option bool) (video : Types.Post) (v : option Post.Video) :
  (∀ u, headOk u ≠ Some true) →
  Js.truthyS (Types.streamingUrl video) = false →
  Types.fallbackUrl video = Some (Types.uri video) ∨ Types.fallbackUrl video = None →
  Js.includes (Types.uri video) "/stream/" = false →
  Types.uri (VideoContext.processVideo headOk video) = Types.uri video
  ∧ Types.isStreaming (VideoContext.processVideo headOk video) = Some false
  ∧ (Post.loadAttempts 2 (VideoContext.processVideo headOk video) v).1
    = [Types.uri video]
  ∧ Post.exhausted (Post.loadAttempts 2 (VideoContext.processVideo headOk video) v).2
    = true.
Proof.
  intros Hno Hs Hf Hinc.
  assert (Api.getBestVideoUrl headOk video = Types.uri video) as Hbest.
  { rewrite best_unconfirmed by done.
    destruct Hf as [Hf|Hf]; rewrite Hf; cbn; [by case_match|done]. }
  assert (Types.uri (VideoContext.processVideo headOk video) = Types.uri video) as Huri.
  { exact Hbest. }
  assert (Types.isStreaming (VideoContext.processVideo headOk video) = Some false) as Hst.
  { cbn [VideoContext.processVideo Types.isStreaming]. by rewrite Hbest, Hinc. }
  split; [exact Huri|]. split; [exact Hst|].
  unfold Post.loadAttempts. cbn [Post.retries].
  rewrite first_error_choice, Hst. cbn [Js.truthyB default andb].
  cbn [VideoContext.processVideo Types.originalUri Types.uri].
  rewrite Hbest. rewrite bool_decide_eq_true_2 by done.
  rewrite andb_false_r. by cbn.
Qed.

Lemma external_video_has_no_retry_witness :
  (Post.loadAttempts 2 (VideoContext.processVideo Cases.offline Cases.external) None).1
  = [Types.uri Cases.external].
Proof.
  refine (proj1 (proj2 (proj2
    (external_video_has_no_retry Cases.offline Cases.external None _ _ _ _)))).
  - discriminate.
  - reflexivity.
  - by left.
  - reflexivity.
Defined.


(** ** What [processVideoUrls] writes *)

Section Shapes.
Import Api.

Implicit Types h : store.

Lemma setProp_alloc h p o k v :
  setProp (<[p := o]> h) p k v = <[p := <[k := v]> o]> h.
Proof. unfold setProp. apply alter_insert_eq. Qed.

Lemma getProp_alloc_old h p o l k :
  l ≠ p → getProp (<[p := o]> h) (VObj l) k = getProp h (VObj l) k.
Proof. intros Hne. unfold getProp. by rewrite lookup_insert_ne. Qed.

Lemma getProp_alloc_new h p o k :
  getProp (<[p := o]> h) (VObj p) k = default VUndefined (o !! k).
Proof. unfold getProp. by rewrite lookup_insert_eq. Qed.

Lemma getProp_stored h l o k :
  h !! l = Some o → getProp h (VObj l) k = default VUndefined (o !! k).
Proof. intros Hl. unfold getProp. by rewrite Hl. Qed.

Lemma stored_not_fresh h l o : h !! l = Some o → l ≠ fresh (dom h).
Proof. intros Hl ->. rewrite fresh_unused in Hl. discriminate. Qed.

(** The base of the server, [API_BASE_URL] without [/api]. *)
Lemma base_url : Js.replace API_BASE_URL "/api" "" = "http://192.168.1.10:3000".
Proof. reflexivity. Qed.

Lemma streaming_shape h l o s :
  h !! l = Some o →
  o !! "uri" = Some (VStr s) →
  Js.startsWith s "/api/stream/" = true →
  andStartsWithStream (default VUndefined (o !! "thumbnail_url")) = inr false →
  processVideoUrls h (VObj l)
  = (<[fresh (dom h) :=
         <["fallbackUrl" :=
             jsOr (jsOr (default VUndefined (o !! "fallback_url"))
                        (default VUndefined (o !! "original_url"))) VNull]>
           (<["streamingUrl" := VStr (String.append "http://192.168.1.10:3000" s)]>
              (<["uri" := VStr (String.append "http://192.168.1.10:3000" s)]> o))]> h,
     inr (VObj (fresh (dom h)))).
Proof.
  intros Hl Huri Hs Hth.
  pose proof (stored_not_fresh h l o Hl) as Hne.
  assert (s ≠ "") as Hs0 by (intros ->; discriminate).
  unfold processVideoUrls. cbn [truthy negb ownProps]. rewrite Hl.
  cbn [from_option Datatypes.id].
  rewrite getProp_alloc_old, (getProp_stored h l o), Huri by done.
  cbn [from_option Datatypes.id].
  unfold andStartsWithStream at 1. cbn [truthy].
  destruct (String.eqb_spec s ""); [done|]. cbn [negb]. rewrite Hs.
  rewrite base_url.
  rewrite !setProp_alloc. cbn [concatStr].
  rewrite getProp_alloc_new, lookup_insert_eq. cbn [from_option Datatypes.id].
  rewrite ?setProp_alloc.
  rewrite !getProp_alloc_old, !(getProp_stored h l o) by done.
  by rewrite Hth.
Qed.

Lemma external_shape h l o s :
  h !! l = Some o →
  o !! "uri" = Some (VStr s) →
  s ≠ "" →
  Js.startsWith s "/api/stream/" = false →
  andStartsWithStream (default VUndefined (o !! "thumbnail_url")) = inr false →
  processVideoUrls h (VObj l)
  = (<[fresh (dom h) :=
         <["uri" := VStr s]>
           (<["fallbackUrl" := VStr s]> (<["streamingUrl" := VNull]> o))]> h,
     inr (VObj (fresh (dom h)))).
Proof.
  intros Hl Huri Hs0 Hs Hth.
  pose proof (stored_not_fresh h l o Hl) as Hne.
  unfold processVideoUrls. cbn [truthy negb ownProps]. rewrite Hl.
  cbn [from_option Datatypes.id].
  rewrite getProp_alloc_old, (getProp_stored h l o), Huri by done.
  cbn [from_option Datatypes.id].
  unfold andStartsWithStream at 1. cbn [truthy].
  destruct (String.eqb_spec s ""); [done|]. cbn [negb]. rewrite Hs.
  rewrite !setProp_alloc.
  rewrite !getProp_alloc_old, !(getProp_stored h l o), ?Huri by done.
  cbn [from_option Datatypes.id].
  rewrite ?setProp_alloc.
  by rewrite Hth.
Qed.

Lemma http_not_stream s :
  Js.startsWith (String.append "http://192.168.1.10:3000" s) "/api/stream/" = false.
Proof. reflexivity. Qed.

End Shapes.

(** X10. For a post whose [uri] is a path under [/api/stream/] (and whose
    thumbnail is not), the copy that [processVideoUrls] returns has the
    server's base URL put before the path as its [uri] and as its
    [streamingUrl], and as [fallbackUrl] the post's [fallback_url], else its
    [original_url], else [null]; every other property is copied as it is,
    and the store gains exactly that one object. *)
Theorem streaming_post_is_rewritten
    (h : gmap positive (gmap string Api.value)) (l : positive)
    (o : gmap string Api.value) (s : string) :
  h !! l = Some o →
  o !! "uri" = Some (Api.VStr s) →
  Js.startsWith s "/api/stream/" = true →
  Api.andStartsWithStream (default Api.VUndefined (o !! "thumbnail_url")) = inr false →
  Api.processVideoUrls h (Api.VObj l)
  = (<[fresh (dom h) :=
         <["fallbackUrl" :=
             Api.jsOr (Api.jsOr (default Api.VUndefined (o !! "fallback_url"))
                         (default Api.VUndefined (o !! "original_url"))) Api.VNull]>
           (<["streamingUrl" := Api.VStr (String.append "http://192.168.1.10:3000" s)]>
              (<["uri" := Api.VStr (String.append "http://192.168.1.10:3000" s)]> o))]> h,
     inr (Api.VObj (fresh (dom h)))).
Proof. apply streaming_shape. Qed.

Lemma streaming_post_is_rewritten_witness :
  (Api.processVideoUrls Sample.oneObject (Api.VObj 1)).2 = inr (Api.VObj 2).
Proof.
  rewrite (streaming_post_is_rewritten Sample.oneObject 1 Sample.streamingPost
             "/api/stream/video/1.mp4"); reflexivity.
Defined.

(** X11. Processing is not idempotent. A post with a path under
    [/api/stream/] comes out with a full URL; processing that copy again
    treats it as an external URL: the second copy keeps the full URL as
    [uri], but its [streamingUrl] is [null] and its [fallbackUrl] is the
    streaming URL itself, so the fallback of the first pass is lost. *)
Theorem processing_twice_drops_streaming
    (h : gmap positive (gmap string Api.value)) (l : positive)
    (o : gmap string Api.value) (s : string) :
  h !! l = Some o →
  o !! "uri" = Some (Api.VStr s) →
  Js.startsWith s "/api/stream/" = true →
  Api.andStartsWithStream (default Api.VUndefined (o !! "thumbnail_url")) = inr false →
  ∃ h1 p1 h2 p2 o2,
    Api.processVideoUrls h (Api.VObj l) = (h1, inr (Api.VObj p1))
    ∧ Api.processVideoUrls h1 (Api.VObj p1) = (h2, inr (Api.VObj p2))
    ∧ h2 !! p2 = Some o2
    ∧ o2 !! "uri" = Some (Api.VStr (String.append "http://192.168.1.10:3000" s))
    ∧ o2 !! "streamingUrl" = Some Api.VNull
    ∧ o2 !! "fallbackUrl"
      = Some (Api.VStr (String.append "http://192.168.1.10:3000" s)).
Proof.
  intros Hl Huri Hs Hth.
  eexists _, _, _, _, _.
  split; [by apply streaming_shape|].
  split.
  { eapply (external_shape _ _ _ (String.append "http://192.168.1.10:3000" s)).
    - apply lookup_insert_eq.
    - rewrite lookup_insert_ne by done. rewrite lookup_insert_ne by done.
      apply lookup_insert_eq.
    - discriminate.
    - apply http_not_stream.
    - by rewrite !lookup_insert_ne. }
  split; [apply lookup_insert_eq|].
  split; [apply lookup_insert_eq|].
  split.
  - rewrite lookup_insert_ne by done. rewrite lookup_insert_ne by done.
    apply lookup_insert_eq.
  - rewrite lookup_insert_ne by done. apply lookup_insert_eq.
Qed.

Lemma processing_twice_drops_streaming_witness :
  ∃ h1 p1 h2 p2 o2,
    Api.processVideoUrls Sample.oneObject (Api.VObj 1) = (h1, inr (Api.VObj p1))
    ∧ Api.processVideoUrls h1 (Api.VObj p1) = (h2, inr (Api.VObj p2))
    ∧ h2 !! p2 = Some o2
    ∧ o2 !! "uri"
      = Some (Api.VStr "http://192.168.1.10:3000/api/stream/video/1.mp4")
    ∧ o2 !! "streamingUrl" = Some Api.VNull
    ∧ o2 !! "fallbackUrl"
      = Some (Api.VStr "http://192.168.1.10:3000/api/stream/video/1.mp4").
Proof.
  apply (processing_twice_drops_streaming Sample.oneObject 1 Sample.streamingPost
           "/api/stream/video/1.mp4"); reflexivity.
Defined.


(** ** When [processVideoUrls] raises, and [getPosts] *)

Section Raising.
Import Api ApiClient.

Implicit Types h : store.

Lemma raises_iff_notAString v :
  andStartsWithStream v = inl TypeError ↔ notAString v = true.
Proof.
  unfold andStartsWithStream, notAString.
  destruct v as [| |[|]|n|s|l]; cbn; try done.
  - destruct (n =? 0); cbn; done.
  - destruct (String.eqb s ""); cbn; done.
Qed.

(** Reading a property of the post gives the same value in every store the
    call passes through. *)
Lemma reads_stable h h' post k :
  inStore h post →
  agreesOff (fresh (dom h)) h h' →
  getProp h' post k = getProp h post k.
Proof.
  intros Hin Hag. destruct post as [| | | | |l]; try reflexivity.
  destruct (Hin l eq_refl) as [o Ho].
  unfold getProp. rewrite Hag; [done|]. by eapply stored_not_fresh.
Qed.

Lemma processVideoUrls_raises h post :
  inStore h post →
  (processVideoUrls h post).2 = inl TypeError
  ↔ truthy post = true
    ∧ (notAString (getProp h post "uri") = true
       ∨ notAString (getProp h post "thumbnail_url") = true).
Proof.
  intros Hin. unfold processVideoUrls.
  destruct (truthy post) eqn:Ht; cbn [negb].
  2:{ cbn. split; [done|]. by intros [? _]. }
  rewrite (reads_stable h _ post "uri" Hin) by apply agreesOff_alloc.
  destruct (andStartsWithStream (getProp h post "uri")) as [[]|b] eqn:Eu.
  { cbn. split; [|done]. intros _. split; [done|]. left.
    by apply raises_iff_notAString. }
  assert (notAString (getProp h post "uri") = false) as Hu.
  { destruct (notAString _) eqn:E; [|done].
    apply raises_iff_notAString in E. congruence. }
  match goal with
  | |- context [andStartsWithStream (getProp ?h2 post "thumbnail_url")] =>
      assert (agreesOff (fresh (dom h)) h h2) as Hag
  end.
  { repeat case_match; repeat apply agreesOff_setProp; apply agreesOff_alloc. }
  rewrite (reads_stable h _ post "thumbnail_url" Hin Hag).
  destruct (andStartsWithStream (getProp h post "thumbnail_url")) as [[]|b'] eqn:Et.
  - cbn. split; [|done]. intros _. split; [done|]. right.
    by apply raises_iff_notAString.
  - cbn. split; [done|]. intros [_ [Hn|Hn]]; [congruence|].
    apply raises_iff_notAString in Hn. congruence.
Qed.

(** Objects of the store survive a call, and a reference the store has
    after the call but not before is new. *)
Lemma processVideoUrls_keeps h post l o :
  h !! l = Some o → (processVideoUrls h post).1 !! l = Some o.
Proof.
  intros Hl. rewrite processVideoUrls_agrees; [done|]. by eapply stored_not_fresh.
Qed.



Lemma mapProcess_keeps posts h l o :
  h !! l = Some o → (mapProcess h posts).1 !! l = Some o.
Proof.
  revert h. induction posts as [|post posts IH]; intros h Hl; [done|].
  cbn [mapProcess].
  pose proof (processVideoUrls_keeps h post l o Hl) as Hk.
  destruct (processVideoUrls h post) as [h1 [e|r]]; [done|].
  specialize (IH h1 Hk).
  destruct (mapProcess h1 posts) as [h2 [e|rs]]; done.
Qed.

Lemma mapProcess_unused posts h p :
  (mapProcess h posts).1 !! p = None → h !! p = None.
Proof.
  intros Hp. destruct (h !! p) as [o|] eqn:Ho; [|done].
  by rewrite (mapProcess_keeps posts h p o Ho) in Hp.
Qed.



Lemma mapProcess_one_bad before after h l o :
  h !! l = Some o →
  notAString (default VUndefined (o !! "uri")) = true →
  (mapProcess h (before ++ VObj l :: after)).2 = inl TypeFailure.
Proof.
  intros Hl Hbad. revert h Hl.
  induction before as [|post before IH]; intros h Hl.
  - cbn [app mapProcess].
    assert ((processVideoUrls h (VObj l)).2 = inl TypeError) as Hr.
    { apply processVideoUrls_raises.
      - intros l' [= <-]. eauto.
      - split; [done|]. left. by rewrite (getProp_stored h l o). }
    destruct (processVideoUrls h (VObj l)) as [h1 [e|r]]; [done|discriminate].
  - cbn [app mapProcess].
    pose proof (processVideoUrls_keeps h post l o Hl) as Hk.
    destruct (processVideoUrls h post) as [h1 [e|r]]; [done|].
    specialize (IH h1 Hk).
    destruct (mapProcess h1 (before ++ VObj l :: after)) as [h2 [e|rs]];
      cbn in *; congruence.
Qed.

End Raising.

(** X12. [processVideoUrls] raises exactly when it is given a truthy post
    whose [uri] or [thumbnail_url] is a truthy value that is not a string
    (a number, [true], an object): on such a value [startsWith] does not
    exist. A missing, [null] or empty [uri] never raises. *)
Theorem processVideoUrls_raises_on_non_strings
    (h : gmap positive (gmap string Api.value)) (post : Api.value) :
  ApiClient.inStore h post →
  (Api.processVideoUrls h post).2 = inl Api.TypeError
  ↔ Api.truthy post = true
    ∧ (ApiClient.notAString (Api.getProp h post "uri") = true
       ∨ ApiClient.notAString (Api.getProp h post "thumbnail_url") = true).
Proof. apply processVideoUrls_raises. Qed.

Lemma processVideoUrls_raises_on_non_strings_witness :
  (Api.processVideoUrls Cases.twoPosts (Api.VObj 2)).2 = inl Api.TypeError.
Proof.
  apply (processVideoUrls_raises_on_non_strings Cases.twoPosts (Api.VObj 2)).
  - intros l [= <-]. by eexists.
  - split; [reflexivity|]. by left.
Defined.



(** X14. [getPosts] is all or nothing: one post in the array whose [uri] is
    a truthy non-string makes the whole call throw, whatever the other
    posts are, so no post is delivered. *)
Theorem getPosts_fails_on_one_bad_post
    (h : gmap positive (gmap string Api.value))
    (status : Z) (statusText : string) (before after : list Api.value)
    (l : positive) (o : gmap string Api.value) :
  h !! l = Some o →
  ApiClient.notAString (default Api.VUndefined (o !! "uri")) = true →
  (ApiClient.getPosts h
     (ApiClient.Response true status statusText
        (inr (ApiClient.JArray (before ++ Api.VObj l :: after))))).2
  = inl ApiClient.TypeFailure.
Proof.
  intros Hl Hbad. unfold ApiClient.getPosts, ApiClient.fetchWithErrorHandling.
  cbn [negb]. by eapply mapProcess_one_bad.
Qed.

Lemma getPosts_fails_on_one_bad_post_witness :
  (ApiClient.getPosts Cases.twoPosts
     (Cases.okResponse ([Api.VObj 1] ++ Api.VObj 2 :: [Api.VObj 1]))).2
  = inl ApiClient.TypeFailure.
Proof.
  apply (getPosts_fails_on_one_bad_post Cases.twoPosts 200 "OK"
           [Api.VObj 1] [Api.VObj 1] 2 Cases.numericUri);
    reflexivity.
Defined.


(** ** Accumulated watch time in the provider *)

Section Updates.
Import Types VideoContext Measure.

Lemma sumFor_absent k updates : k ∉ updates.*1 → sumFor k updates = 0.
Proof.
  induction updates as [|[k0 d] updates IH]; cbn [sumFor fmap list_fmap fst];
    [done|].
  intros [Hne Hnin]%not_elem_of_cons.
  rewrite bool_decide_eq_false_2 by done.
  rewrite IH by done. lia.
Qed.

Lemma updateAll_lookup updates c k :
  timeSpent (updateAll updates c) !! k
  = if bool_decide (k ∈ updates.*1)
    then Some (default 0 (timeSpent c !! k) + sumFor k updates)
    else timeSpent c !! k.
Proof.
  unfold updateAll. revert c.
  induction updates as [|[k0 d] updates IH]; intros c; cbn [foldl fmap list_fmap sumFor].
  { rewrite bool_decide_eq_false_2; [done|apply not_elem_of_nil]. }
  rewrite IH. cbn [fst snd updateTimeSpent timeSpent].
  destruct (decide (k0 = k)) as [->|Hne].
  - rewrite lookup_insert_eq. rewrite (bool_decide_eq_true_2 (k = k)) by done.
    rewrite (bool_decide_eq_true_2 (k ∈ k :: _)) by (apply elem_of_cons; by left).
    cbn [default from_option Datatypes.id].
    case_bool_decide as Hin; f_equal; [lia|].
    rewrite (sumFor_absent k updates) by done. lia.
  - rewrite lookup_insert_ne by done.
    rewrite (bool_decide_eq_false_2 (k0 = k)) by done.
    case_bool_decide as Hin.
    + rewrite bool_decide_eq_true_2 by (apply elem_of_cons; by right).
      f_equal; lia.
    + rewrite bool_decide_eq_false_2; [done|].
      apply not_elem_of_cons. split; [congruence|done].
Qed.

Lemma sumFor_perm k updates updates' :
  updates ≡ₚ updates' → sumFor k updates = sumFor k updates'.
Proof.
  induction 1 as [|[k0 d] l l' _ IH|[k1 d1] [k2 d2] l|l1 l2 l3 _ IH1 _ IH2];
    cbn [sumFor]; lia.
Qed.

End Updates.

(** X15. The time recorded for a video after any sequence of
    [updateTimeSpent] calls is what was recorded before plus the sum of the
    durations reported for that video; videos not reported keep their
    entry. The order of the calls does not matter. *)
Theorem time_updates_accumulate
    (updates updates' : list (string * Z)) (c : VideoContext.State) :
  updates ≡ₚ updates' →
  (∀ k, VideoContext.timeSpent (Measure.updateAll updates c) !! k
        = if bool_decide (k ∈ updates.*1)
          then Some (default 0 (VideoContext.timeSpent c !! k)
                     + Measure.sumFor k updates)
          else VideoContext.timeSpent c !! k)
  ∧ VideoContext.timeSpent (Measure.updateAll updates c)
    = VideoContext.timeSpent (Measure.updateAll updates' c).
Proof.
  intros Hperm. split; [intros k; apply updateAll_lookup|].
  apply map_eq. intros k. rewrite !updateAll_lookup.
  rewrite (sumFor_perm k updates updates' Hperm).
  assert (k ∈ updates.*1 ↔ k ∈ updates'.*1) as Hiff by (by rewrite Hperm).
  destruct (decide (k ∈ updates.*1)) as [Hk|Hk].
  - by rewrite !bool_decide_eq_true_2 by tauto.
  - by rewrite !bool_decide_eq_false_2 by tauto.
Qed.

Lemma time_updates_accumulate_witness :
  VideoContext.timeSpent
    (Measure.updateAll [("1", 1200); ("2", 300); ("1", 50)] VideoContext.initial)
  = VideoContext.timeSpent
      (Measure.updateAll [("2", 300); ("1", 50); ("1", 1200)] VideoContext.initial).
Proof.
  refine (proj2 (time_updates_accumulate
                   [("1", 1200); ("2", 300); ("1", 50)]
                   [("2", 300); ("1", 50); ("1", 1200)] VideoContext.initial _)).
  rewrite (Permutation_swap ("2", 300) ("1", 1200) [("1", 50)]).
  apply Permutation_skip. apply Permutation_swap.
Defined.

(** ** Sessions of the TypeScript screen over whole event sequences *)

Section Sessions.
Import Types Measure.

Context {H : Type} {R : Types.VideoRef H}.

Implicit Types s : FeedTs.State H.

Lemma reportClosedTime_app k open l1 l2 :
  Observe.reportClosedTime k open (l1 ++ l2)
  = Observe.reportClosedTime k open l1
    + Observe.reportClosedTime k (sessionAfter open l1) l2.
Proof.
  unfold sessionAfter. revert open.
  induction l1 as [|r l1 IH]; intros open; cbn [app Observe.reportClosedTime foldl].
  { lia. }
  destruct (isViewable r); [apply IH|].
  destruct open as [[k0 t0]|]; [|apply IH].
  case_bool_decide; rewrite IH; lia.
Qed.

Lemma ts_session_after reports s :
  Observe.holdsSession (FeedTs.lastViewedRef s) →
  Forall (λ r, now r ≠ 0) reports →
  Observe.holdsSession
    (FeedTs.lastViewedRef (FeedTs.onViewableItemsChangedCallback reports s))
  ∧ Observe.openSession
      (FeedTs.lastViewedRef (FeedTs.onViewableItemsChangedCallback reports s))
    = sessionAfter (Observe.openSession (FeedTs.lastViewedRef s)) reports.
Proof.
  unfold FeedTs.onViewableItemsChangedCallback, sessionAfter.
  intros Hs Hall. revert s Hs.
  induction Hall as [|r reports Hr _ IH]; intros s Hs; cbn [foldl]; [done|].
  destruct (isViewable r) eqn:Hv.
  - destruct (ts_viewable_report s r Hv) as [Hl _].
    destruct (IH (FeedTs.onElement s r)) as [IH1 IH2]; [right; eauto|].
    split; [done|]. by rewrite IH2, Hl.
  - destruct Hs as [Hn | (k & t & Ht0 & Hl)].
    + destruct (ts_hidden_report_idle s r Hv Hn) as [Hl' _].
      destruct (IH (FeedTs.onElement s r)) as [IH1 IH2]; [by left|].
      split; [done|]. by rewrite IH2, Hl', Hn.
    + destruct (decide (k = key r)) as [->|Hne].
      * destruct (ts_hidden_report_closes s r t Hv Ht0 Hl) as [Hl' _].
        destruct (IH (FeedTs.onElement s r)) as [IH1 IH2]; [by left|].
        split; [done|]. rewrite IH2, Hl', Hl.
        cbn [Observe.openSession contentId startTime noView].
        by rewrite bool_decide_eq_true_2.
      * destruct (ts_hidden_report_other s r k t Hv Hl Hne) as [Hl' _].
        destruct (IH (FeedTs.onElement s r)) as [IH1 IH2].
        { rewrite Hl', Hl. right; eauto. }
        split; [done|]. rewrite IH2, Hl', Hl.
        cbn [Observe.openSession contentId startTime].
        by rewrite bool_decide_eq_false_2.
Qed.

Lemma ts_run_sessions es s k :
  Forall (λ e, e ≠ FeedTs.ResetMetrics) es →
  Forall (λ r, now r ≠ 0) (reportsOf es) →
  Observe.holdsSession (FeedTs.lastViewedRef s) →
  default 0 (VideoContext.timeSpent (FeedTs.ctx (FeedTs.run s es)) !! k)
  = default 0 (VideoContext.timeSpent (FeedTs.ctx s) !! k)
    + Observe.reportClosedTime k (Observe.openSession (FeedTs.lastViewedRef s))
        (reportsOf es)
  ∧ Observe.openSession (FeedTs.lastViewedRef (FeedTs.run s es))
    = sessionAfter (Observe.openSession (FeedTs.lastViewedRef s)) (reportsOf es).
Proof.
  unfold FeedTs.run, reportsOf. intros Hnr. revert s.
  induction Hnr as [|e es He _ IH]; intros s Hnz Hs; cbn [foldl map concat].
  { cbn. split; [lia|done]. }
  cbn [map concat] in Hnz.
  apply Forall_app in Hnz as [Hnz1 Hnz2].
  assert (∀ s',
            FeedTs.lastViewedRef s' = FeedTs.lastViewedRef s →
            VideoContext.timeSpent (FeedTs.ctx s')
            = VideoContext.timeSpent (FeedTs.ctx s) →
            default 0
              (VideoContext.timeSpent (FeedTs.ctx (foldl FeedTs.step s' es)) !! k)
            = default 0 (VideoContext.timeSpent (FeedTs.ctx s) !! k)
              + Observe.reportClosedTime k
                  (Observe.openSession (FeedTs.lastViewedRef s))
                  (concat (map (λ e, match e with
                                     | FeedTs.ViewableItemsChanged changed => changed
                                     | _ => []
                                     end) es))
            ∧ Observe.openSession (FeedTs.lastViewedRef (foldl FeedTs.step s' es))
              = sessionAfter (Observe.openSession (FeedTs.lastViewedRef s))
                  (concat (map (λ e, match e with
                                     | FeedTs.ViewableItemsChanged changed => changed
                                     | _ => []
                                     end) es))) as Hsame.
  { intros s' Hl Ht. destruct (IH s') as [IH1 IH2]; [done|by rewrite Hl|].
    by rewrite IH1, IH2, Hl, Ht. }
  destruct e as [changed|next| | |videoId postRef|videoId].
  - cbn [FeedTs.step].
    destruct (ts_session_after changed s Hs Hnz1) as [Hs' Ho'].
    destruct (IH _ Hnz2 Hs') as [IH1 IH2].
    rewrite IH1, IH2, Ho'.
    rewrite (ts_spent_closed_sessions changed s k Hs Hnz1).
    rewrite reportClosedTime_app.
    split; [lia|]. unfold sessionAfter. by rewrite foldl_app.
  - apply Hsame; cbn [FeedTs.step];
      [apply ts_appState_recorded|by rewrite ts_appState_ctx].
  - by apply Hsame.
  - done.
  - by apply Hsame.
  - by apply Hsame.
Qed.

End Sessions.

(** X16. On the TypeScript screen, over any sequence of events without a
    reset and with clock readings other than 0, the time recorded for an
    item grows by exactly the durations of its sessions that the viewability
    reports close, and the session held at the end is the one those reports
    leave open. Application state changes, survey submissions and posts
    mounting or unmounting in between change neither: a session stays open
    while the application is in the background, and the time spent there is
    recorded with it. *)
Theorem watch_time_follows_reports
    {H : Type} {R : Types.VideoRef H}
    (es : list (FeedTs.Event H)) (s : FeedTs.State H) (k : string) :
  Forall (λ e, e ≠ FeedTs.ResetMetrics) es →
  Forall (λ r, Types.now r ≠ 0) (Measure.reportsOf es) →
  Observe.holdsSession (FeedTs.lastViewedRef s) →
  default 0 (VideoContext.timeSpent (FeedTs.ctx (FeedTs.run s es)) !! k)
  = default 0 (VideoContext.timeSpent (FeedTs.ctx s) !! k)
    + Observe.reportClosedTime k (Observe.openSession (FeedTs.lastViewedRef s))
        (Measure.reportsOf es)
  ∧ Observe.openSession (FeedTs.lastViewedRef (FeedTs.run s es))
    = Measure.sessionAfter (Observe.openSession (FeedTs.lastViewedRef s))
        (Measure.reportsOf es).
Proof. apply ts_run_sessions. Qed.

Lemma watch_time_follows_reports_witness :
  default 0
    (VideoContext.timeSpent
       (FeedTs.ctx
          (FeedTs.run (FeedTs.initial Types.active VideoContext.initial)
             Cases.viewedAcrossBackground)) !! "1")
  = 1200.
Proof.
  refine (proj1 (watch_time_follows_reports Cases.viewedAcrossBackground
                   (FeedTs.initial Types.active VideoContext.initial) "1" _ _ _)).
  - repeat constructor; discriminate.
  - repeat constructor; discriminate.
  - by left.
Defined.


(** ** What scrolling and application state changes do on the TypeScript
    screen *)

Section TsScreen.
Import Types Measure.

Context {H : Type} {R : Types.VideoRef H}.

Implicit Types s : FeedTs.State H.

Lemma ts_appState_survey next s :
  next ≠ inactive → next ≠ background →
  FeedTs.showSurvey (FeedTs.handleAppStateChange next s) = FeedTs.showSurvey s.
Proof.
  intros Hi Hb. unfold FeedTs.handleAppStateChange.
  rewrite (bool_decide_eq_false_2 (next = inactive)) by done.
  rewrite (bool_decide_eq_false_2 (next = background)) by done.
  cbn [orb]. unfold FeedTs.callCurrent. repeat case_match; reflexivity.
Qed.

Lemma ts_step_survey s e :
  ¬ leavesForeground e →
  FeedTs.showSurvey s = false →
  FeedTs.showSurvey (FeedTs.step s e) = false.
Proof.
  intros Hnl Hs.
  destruct e as [changed|next| | |videoId postRef|videoId]; cbn [FeedTs.step];
    try done.
  - by rewrite ts_batch_keeps_survey.
  - rewrite ts_appState_survey; [done| |]; intros ->; apply Hnl;
      [by left|by right].
Qed.

Lemma ts_onElement_count s r :
  VideoContext.videoCount (FeedTs.ctx (FeedTs.onElement s r))
  = VideoContext.videoCount (FeedTs.ctx s) + (if isViewable r then 1 else 0).
Proof.
  unfold FeedTs.onElement. destruct (isViewable r); cbn; [done|].
  case_match; cbn; lia.
Qed.

Lemma ts_batch_count changed s :
  VideoContext.videoCount (FeedTs.ctx (FeedTs.onViewableItemsChangedCallback changed s))
  = VideoContext.videoCount (FeedTs.ctx s) + viewableCount changed.
Proof.
  unfold FeedTs.onViewableItemsChangedCallback, viewableCount. revert s.
  induction changed as [|r changed IH]; intros s; cbn [foldl].
  { cbn. lia. }
  rewrite IH, ts_onElement_count.
  destruct (isViewable r) eqn:Hv.
  - rewrite filter_cons_True by done. cbn [length]. lia.
  - rewrite filter_cons_False by congruence. lia.
Qed.

Lemma ts_batch_depth_covers changed s r :
  r ∈ changed → isViewable r = true →
  index r + 1
  ≤ VideoContext.maxScrollDepth
      (FeedTs.ctx (FeedTs.onViewableItemsChangedCallback changed s)).
Proof.
  unfold FeedTs.onViewableItemsChangedCallback. intros Hin Hv. revert s.
  induction changed as [|r0 changed IH]; intros s; [by apply not_elem_of_nil in Hin|].
  cbn [foldl]. apply elem_of_cons in Hin as [->|Hin].
  - etrans; [|apply (ts_callback_depth_mono changed)].
    rewrite ts_onElement_depth, Hv. lia.
  - by apply IH.
Qed.

Lemma commanded_dom changed (m : gmap string H) :
  dom (Observe.commanded m changed) = dom m.
Proof.
  unfold Observe.commanded. revert m.
  induction changed as [|r changed IH]; intros m; cbn [foldl]; [done|].
  by rewrite IH, dom_alter_L.
Qed.

Lemma ts_appState_dom next s :
  dom (FeedTs.mediaRefs (FeedTs.handleAppStateChange next s)) = dom (FeedTs.mediaRefs s).
Proof.
  unfold FeedTs.handleAppStateChange, FeedTs.callCurrent, FeedTs.callRef.
  repeat case_match; cbn; rewrite ?dom_alter_L; done.
Qed.

Lemma ts_step_dom s e :
  ¬ isRefCallback e →
  dom (FeedTs.mediaRefs (FeedTs.step s e)) = dom (FeedTs.mediaRefs s).
Proof.
  intros Hn.
  destruct e as [changed|next| | |videoId postRef|videoId]; cbn [FeedTs.step];
    try done.
  - by rewrite ts_batch_mediaRefs, commanded_dom.
  - apply ts_appState_dom.
Qed.

End TsScreen.

(** X17. On the TypeScript screen the survey is raised by nothing but the
    application leaving the foreground: over any sequence of events that
    contains no change to [inactive] or [background], a survey that is not
    showing stays hidden, however many videos are viewed. *)
Theorem survey_only_when_leaving_foreground
    {H : Type} {R : Types.VideoRef H}
    (es : list (FeedTs.Event H)) (s : FeedTs.State H) :
  Forall (λ e, ¬ Measure.leavesForeground e) es →
  FeedTs.showSurvey s = false →
  FeedTs.showSurvey (FeedTs.run s es) = false.
Proof.
  unfold FeedTs.run. intros Hall. revert s.
  induction Hall as [|e es He _ IH]; intros s Hs; cbn [foldl]; [done|].
  apply IH. by apply ts_step_survey.
Qed.

Lemma survey_only_when_leaving_foreground_witness :
  FeedTs.showSurvey
    (FeedTs.run (FeedTs.initial Types.active VideoContext.initial)
       (take 2 Cases.viewedAcrossBackground ++ [FeedTs.AppStateChange Types.active]))
  = false.
Proof.
  apply (survey_only_when_leaving_foreground
           (take 2 Cases.viewedAcrossBackground ++ [FeedTs.AppStateChange Types.active])
           (FeedTs.initial Types.active VideoContext.initial)).
  - repeat constructor; intros [Hl|Hl]; discriminate.
  - reflexivity.
Defined.

(** X18. On the TypeScript screen every viewable report counts as a video
    viewed: a batch raises the video count by the number of its viewable
    reports (two for a batch that reports two items viewable), and leaves
    the recorded depth at least at the position, counted from one, of every
    item it reports viewable. *)
Theorem every_viewable_report_counts
    {H : Type} {R : Types.VideoRef H}
    (changed : list Types.ViewToken) (s : FeedTs.State H) :
  VideoContext.videoCount (FeedTs.ctx (FeedTs.onViewableItemsChangedCallback changed s))
  = VideoContext.videoCount (FeedTs.ctx s) + Measure.viewableCount changed
  ∧ Forall (λ r, Types.isViewable r = true →
                 Types.index r + 1
                 ≤ VideoContext.maxScrollDepth
                     (FeedTs.ctx (FeedTs.onViewableItemsChangedCallback changed s)))
      changed.
Proof.
  split; [apply ts_batch_count|].
  apply Forall_forall. intros r Hin Hv. by apply ts_batch_depth_covers.
Qed.

(** X19. Of everything that reaches the TypeScript screen, only the ref
    callback of a post mounting or unmounting changes which items have a
    handle: batches, application state changes, resets and survey
    submissions send commands to handles that are there and skip items that
    have none. *)
Theorem handlers_keep_the_registry
    {H : Type} {R : Types.VideoRef H}
    (es : list (FeedTs.Event H)) (s : FeedTs.State H) :
  Forall (λ e, ¬ Measure.isRefCallback e) es →
  dom (FeedTs.mediaRefs (FeedTs.run s es)) = dom (FeedTs.mediaRefs s).
Proof.
  unfold FeedTs.run. intros Hall. revert s.
  induction Hall as [|e es He _ IH]; intros s; cbn [foldl]; [done|].
  rewrite IH. by apply ts_step_dom.
Qed.

Lemma handlers_keep_the_registry_witness :
  dom (FeedTs.mediaRefs
         (FeedTs.run (R := Observe.Recorder) Sample.watching2
            [FeedTs.ViewableItemsChanged [Sample.tok "3" true 2 5000];
             FeedTs.AppStateChange Types.background; FeedTs.ResetMetrics]))
  = dom (FeedTs.mediaRefs Sample.watching2).
Proof.
  apply (handlers_keep_the_registry (R := Observe.Recorder)).
  repeat constructor; intros [].
Defined.

(** ** Recorded time on the JavaScript screen *)

Section JsTotals.
Import Types Measure.

Context {H : Type} {R : Types.VideoRef H}.

Implicit Types s : FeedJs.State H.

Lemma total_insert_fresh (m : gmap string Z) k v :
  m !! k = None → total (<[k := v]> m) = v + total m.
Proof.
  intros Hk. unfold total. apply map_fold_insert_L; [|done].
  intros. lia.
Qed.

Lemma total_addTime (m : gmap string Z) k d :
  total (FeedJs.addTime k d m) = total m + d.
Proof.
  unfold FeedJs.addTime. destruct (m !! k) as [x|] eqn:Hk; cbn.
  - rewrite <- (insert_delete_eq m k (x + d)).
    rewrite total_insert_fresh by apply lookup_delete_eq.
    assert (total m = x + total (delete k m)) as ->; [|lia].
    unfold total.
    apply (map_fold_delete_L (λ (_ : string) (v acc : Z), v + acc) 0 k x m); [|done].
    intros. lia.
  - rewrite total_insert_fresh by done. lia.
Qed.

Lemma js_onElement_no_credit s r kf :
  contentId (FeedJs.lastViewedRef s) = Some kf →
  (isViewable r = false → key r ≠ kf) →
  FeedJs.timeSpent (FeedJs.onElement s r) = FeedJs.timeSpent s
  ∧ FeedJs.lastViewedRef (FeedJs.onElement s r) = FeedJs.lastViewedRef s.
Proof.
  intros Hc Hr. unfold FeedJs.onElement.
  destruct (FeedJs.mediaRefs s !! key r); [|done].
  destruct (isViewable r); [done|].
  cbn [FeedJs.lastViewedRef FeedJs.setMediaRefs]. rewrite Hc.
  rewrite bool_decide_eq_false_2; [done|].
  intros [= Heq]. by apply Hr.
Qed.

Lemma js_forEach_no_credit changed s kf :
  contentId (FeedJs.lastViewedRef s) = Some kf →
  Forall (λ r, isViewable r = false → key r ≠ kf) changed →
  FeedJs.timeSpent (foldl FeedJs.onElement s changed) = FeedJs.timeSpent s
  ∧ FeedJs.lastViewedRef (foldl FeedJs.onElement s changed) = FeedJs.lastViewedRef s.
Proof.
  intros Hc Hall. revert s Hc.
  induction Hall as [|r changed Hr _ IH]; intros s Hc; cbn [foldl]; [done|].
  destruct (js_onElement_no_credit s r kf Hc Hr) as [Ht Hl].
  destruct (IH (FeedJs.onElement s r)) as [IH1 IH2]; [by rewrite Hl|].
  by rewrite IH1, IH2, Ht, Hl.
Qed.

(** A consistent batch credits the item viewed last, once, up to the
    batch's clock reading, and starts the next session there. *)
Lemma js_consistent_batch b s k t0 :
  consistent b →
  contentId (FeedJs.lastViewedRef s) = Some k →
  startTime (FeedJs.lastViewedRef s) = Some t0 →
  FeedJs.timeSpent (FeedJs.onViewableItemsChanged b s)
  = FeedJs.addTime k (FeedJs.currentTime b - t0) (FeedJs.timeSpent s)
  ∧ startTime (FeedJs.lastViewedRef (FeedJs.onViewableItemsChanged b s))
    = Some (FeedJs.currentTime b)
  ∧ is_Some (contentId (FeedJs.lastViewedRef (FeedJs.onViewableItemsChanged b s))).
Proof.
  intros [Hne Hcons] Hc Ht.
  destruct (FeedJs.viewableItems b) as [|first rest] eqn:Hv; [done|].
  specialize (Hcons first rest eq_refl).
  unfold FeedJs.onViewableItemsChanged. rewrite Hc, Ht, Hv.
  match goal with
  | |- context [foldl FeedJs.onElement ?s1 (FeedJs.changed b)] =>
      destruct (js_forEach_no_credit (FeedJs.changed b) s1 (key first)) as [E1 E2];
        [ | exact Hcons | ]
  end.
  { unfold FeedJs.setVideoCount. repeat case_match; reflexivity. }
  rewrite E1, E2. unfold FeedJs.setVideoCount.
  repeat case_match; cbn; eauto.
Qed.

Lemma js_total_over_batches bs b s k t0 :
  Forall consistent (bs ++ [b]) →
  contentId (FeedJs.lastViewedRef s) = Some k →
  startTime (FeedJs.lastViewedRef s) = Some t0 →
  total (FeedJs.timeSpent (batches (bs ++ [b]) s))
  = total (FeedJs.timeSpent s) + (FeedJs.currentTime b - t0).
Proof.
  unfold batches. revert s k t0.
  induction bs as [|b1 bs IH]; intros s k t0 Hall Hc Ht; cbn [app foldl].
  - apply Forall_cons in Hall as [Hb _].
    destruct (js_consistent_batch b s k t0 Hb Hc Ht) as (-> & _ & _).
    apply total_addTime.
  - apply Forall_cons in Hall as [Hb1 Hall].
    destruct (js_consistent_batch b1 s k t0 Hb1 Hc Ht) as (Hts & Hst & [k1 Hk1]).
    rewrite (IH _ k1 (FeedJs.currentTime b1)) by done.
    rewrite Hts, total_addTime. lia.
Qed.

End JsTotals.

(** X20. On the JavaScript screen, as long as every batch has an item in
    view (and reports no viewable item as gone), no time is lost and none
    is counted twice: over any such batches, starting with an item in view
    since [t0], the time recorded over all items grows by exactly the time
    from [t0] to the clock reading of the last batch. *)
Theorem recorded_time_is_elapsed_time
    {H : Type} {R : Types.VideoRef H}
    (bs : list FeedJs.Batch) (b : FeedJs.Batch)
    (s : FeedJs.State H) (k : string) (t0 : Z) :
  Forall Measure.consistent (bs ++ [b]) →
  Types.contentId (FeedJs.lastViewedRef s) = Some k →
  Types.startTime (FeedJs.lastViewedRef s) = Some t0 →
  Measure.total (FeedJs.timeSpent (Measure.batches (bs ++ [b]) s))
  = Measure.total (FeedJs.timeSpent s) + (FeedJs.currentTime b - t0).
Proof. apply js_total_over_batches. Qed.

Lemma recorded_time_is_elapsed_time_witness :
  Measure.total
    (FeedJs.timeSpent
       (Measure.batches (Cases.threeBatches ++ [Cases.lastBatch]) Cases.jsWatching1))
  = Measure.total (FeedJs.timeSpent Cases.jsWatching1) + (2600 - 400).
Proof.
  apply (recorded_time_is_elapsed_time Cases.threeBatches Cases.lastBatch
           Cases.jsWatching1 "1" 400).
  - repeat first [by apply Forall_nil | apply Forall_cons; split];
      (split;
       [discriminate
       |intros first rest [= <- <-];
        repeat (apply Forall_cons; split; [cbn; intros; congruence|]);
        by apply Forall_nil]).
  - reflexivity.
  - reflexivity.
Defined.

(** X21. The listener of the JavaScript screen keeps no record of the
    state seen last: each [active] event plays the current handle, so two
    [active] events in a row play it twice. *)
Theorem js_resume_is_unguarded
    {H : Type} {R : Types.VideoRef H}
    (s : FeedJs.State H) (cid : string) (h : H) :
  Types.contentId (FeedJs.lastViewedRef s) = Some cid →
  cid ≠ "" →
  FeedJs.mediaRefs s !! cid = Some h →
  FeedJs.mediaRefs
    (FeedJs.run s [FeedJs.AppStateChange Types.active; FeedJs.AppStateChange Types.active])
  = <[cid := Types.play (Types.play h)]> (FeedJs.mediaRefs s).
Proof.
  intros Hc Hne Hm. unfold FeedJs.run. cbn [foldl FeedJs.step].
  assert (Types.contentId
            (FeedJs.lastViewedRef (FeedJs.appStateListener Types.active s))
          = Some cid) as Hc'.
  { unfold FeedJs.appStateListener, FeedJs.callCurrent.
    repeat case_match; cbn; done. }
  rewrite (js_active_always_plays _ cid (Types.play h) Hc' Hne).
  - rewrite (js_active_always_plays s cid h Hc Hne Hm). apply insert_insert_eq.
  - rewrite (js_active_always_plays s cid h Hc Hne Hm). apply lookup_insert_eq.
Qed.

Lemma js_resume_is_unguarded_witness :
  FeedJs.mediaRefs
    (FeedJs.run Cases.jsWatching1
       [FeedJs.AppStateChange Types.active; FeedJs.AppStateChange Types.active])
  = <["1" := Types.play (Types.play Sample.paused)]> (FeedJs.mediaRefs Cases.jsWatching1).
Proof.
  apply (js_resume_is_unguarded Cases.jsWatching1 "1" Sample.paused);
    [reflexivity | discriminate | reflexivity].
Defined.


(** ** Analytics *)

Section Tracking.
Import Types Analytics.

Variable clock : nat → Z.

Lemma apply_disabled s o :
  isAnalyticsEnabled s = false → apply clock s o = s.
Proof.
  intros Hd. destruct o; cbn [apply];
    unfold startSession, endSession, startVideoView, endVideoView,
      handleAppStateChange, setupAnalyticsTracking, cleanup, submitSurveyResponses;
    rewrite ?Hd; reflexivity.
Qed.













Hypothesis clock_truthy : ∀ n, clock n ≠ 0.






End Tracking.

(** X22. With analytics switched off, as the module is loaded, every
    function of the module is a no-op: over any sequence of calls nothing is
    tracked, no session or video is recorded and the clock is not even
    read. *)
Theorem analytics_off_is_inert
    (clock : nat → Z) (os : list Analytics.Op) (s : Analytics.State) :
  Analytics.isAnalyticsEnabled s = false →
  Analytics.run clock s os = s.
Proof.
  unfold Analytics.run. intros Hd.
  induction os as [|o os IH]; cbn [foldl]; [done|].
  by rewrite apply_disabled.
Qed.

Lemma analytics_off_is_inert_witness :
  Analytics.run Cases.clock700 Analytics.loaded Cases.viewing = Analytics.loaded.
Proof.
  apply (analytics_off_is_inert Cases.clock700 Cases.viewing Analytics.loaded).
  reflexivity.
Defined.





(** ** The login form *)

Section LoginForm.
Import Login.

Lemma dropWhile_nil f t : dropWhile f t = [] ↔ Forall (λ c, f c = true) t.
Proof.
  induction t as [|c t IH]; cbn [dropWhile]; [done|].
  destruct (f c) eqn:Hc.
  - rewrite IH. split; [by constructor|by inversion 1].
  - split; [done|]. inversion 1; congruence.
Qed.

Lemma dropWhile_stops f t :
  Forall (λ c, f c = true) (dropWhile f t) → dropWhile f t = [].
Proof.
  induction t as [|c t IH]; cbn [dropWhile]; [done|].
  destruct (f c) eqn:Hc; [done|]. inversion 1; congruence.
Qed.

Lemma trim_falsy t :
  falsy (trim t) = true ↔ Forall (λ c, isWhiteSpace c = true) t.
Proof.
  unfold falsy, trim. rewrite bool_decide_eq_true.
  split.
  - intros Hnil. apply dropWhile_nil.
    apply (f_equal reverse) in Hnil.
    rewrite reverse_involutive, reverse_nil in Hnil.
    apply dropWhile_nil in Hnil. rewrite Forall_reverse in Hnil.
    by apply dropWhile_stops.
  - intros Hall. apply dropWhile_nil in Hall. by rewrite Hall.
Qed.

Lemma validateForm_accepts s :
  (validateForm s).1 = true
  ↔ hasContent (email s) ∧ hasContent (password s) ∧ (6 ≤ length (password s))%nat.
Proof.
  unfold validateForm, hasContent. rewrite <- !trim_falsy.
  destruct (falsy (trim (email s)));
    [cbn; split; [done|intros [He _]; by destruct He]|].
  destruct (falsy (trim (password s)));
    [cbn; split; [done|intros (_ & Hp & _); by destruct Hp]|].
  case_bool_decide; cbn; split; try done.
  - intros (_ & _ & Hlen). lia.
  - intros _. split; [done|]. split; [done|lia].
Qed.

End LoginForm.

(** X25. [handleLogin] and [handleSignUp] call the auth method exactly
    when the email and the password each contain something other than white
    space and the password has at least six code units, white space
    included; they then pass both as typed, untrimmed, and leave the form
    enabled again whether the call succeeds or throws. Otherwise nothing is
    called and exactly one alert is shown. *)
Theorem submit_needs_a_valid_form
    (handler : option string → Login.State → Login.State)
    (outcome : option string) (s : Login.State) :
  handler = Login.handleLogin ∨ handler = Login.handleSignUp →
  ((Login.validateForm s).1 = true
   ↔ Login.hasContent (Login.email s) ∧ Login.hasContent (Login.password s)
     ∧ (6 ≤ length (Login.password s))%nat)
  ∧ Login.calls (handler outcome s)
    = Login.calls s
      ++ (if (Login.validateForm s).1
          then [(Login.email s, Login.password s)] else [])
  ∧ ((Login.validateForm s).1 = true →
     Login.isSubmitting (handler outcome s) = false)
  ∧ ((Login.validateForm s).1 = false →
     length (Login.alerts (handler outcome s)) = S (length (Login.alerts s))).
Proof.
  intros Hhandler. split; [apply validateForm_accepts|].
  destruct Hhandler as [-> | ->];
    unfold Login.handleLogin, Login.handleSignUp, Login.submit, Login.validateForm;
    repeat case_match; simplify_eq/=;
    rewrite ?app_nil_r, ?length_app; cbn; repeat split; try done; try lia.
Qed.

Lemma submit_needs_a_valid_form_witness :
  Login.calls (Login.handleSignUp (Some "taken") Cases.goodPassword)
  = [(Login.email Cases.goodPassword, Login.password Cases.goodPassword)]
  ∧ Login.isSubmitting (Login.handleSignUp (Some "taken") Cases.goodPassword) = false.
Proof.
  destruct (submit_needs_a_valid_form Login.handleSignUp (Some "taken")
              Cases.goodPassword) as (_ & Hcalls & Hsub & _); [by right|].
  split; [exact Hcalls|by apply Hsub].
Defined.

(** ** The survey form *)

Section Survey2.
Import SurveyForm.

(** Whatever is pressed, a stored rating is a value of the scale. *)
Lemma ratings_from_scale inputs r :
  Forall fromScale inputs →
  (∀ v, engagementR r = Some v → v ∈ scale) →
  (∀ v, qualityR r = Some v → v ∈ scale) →
  (∀ v, engagementR (foldl onInput r inputs) = Some v → v ∈ scale)
  ∧ (∀ v, qualityR (foldl onInput r inputs) = Some v → v ∈ scale).
Proof.
  intros Hall. revert r.
  induction Hall as [|i inputs Hi _ IH]; intros r He Hq; cbn [foldl]; [done|].
  apply IH; destruct i as [[|] value|text]; cbn in *; try done;
    intros v [= <-]; done.
Qed.

Lemma scale_range v : v ∈ scale → 1 ≤ v ≤ 5.
Proof.
  unfold scale. rewrite !elem_of_cons. intros Hin.
  destruct Hin as [->|[->|[->|[->|[->|Hin]]]]]; try lia.
  by apply not_elem_of_nil in Hin.
Qed.

Lemma orZero_rated x :
  (∀ v, x = Some v → v ∈ scale) → rated x (orZero x).
Proof.
  intros Hx. destruct x as [v|]; [|by left].
  pose proof (scale_range v (Hx v eq_refl)) as Hr.
  right. unfold orZero. cbn.
  destruct (Z.eqb_spec v 0); [lia|]. by split.
Qed.

End Survey2.

(** X26. Whatever buttons are pressed and whatever is typed, submitting the
    survey yields exactly three responses, for [engagement], [quality] and
    [feedback] in this order, stamped with the three clock readings; each
    rating is [0] when its question was never rated and otherwise the value
    between 1 and 5 pressed last; the feedback is the text as it stands. *)
Theorem survey_submits_three_responses
    (inputs : list SurveyForm.Input) (t1 t2 t3 : Z) :
  Forall SurveyForm.fromScale inputs →
  ∃ a b,
    SurveyForm.handleSubmit t1 t2 t3 (foldl SurveyForm.onInput SurveyForm.initial inputs)
    = [ {| SurveyForm.questionId := "engagement"; SurveyForm.answer := SurveyForm.Num a;
           SurveyForm.timestamp := t1 |};
        {| SurveyForm.questionId := "quality"; SurveyForm.answer := SurveyForm.Num b;
           SurveyForm.timestamp := t2 |};
        {| SurveyForm.questionId := "feedback";
           SurveyForm.answer :=
             SurveyForm.Text
               (SurveyForm.feedback
                  (foldl SurveyForm.onInput SurveyForm.initial inputs));
           SurveyForm.timestamp := t3 |} ]
    ∧ SurveyForm.rated
        (SurveyForm.engagementR (foldl SurveyForm.onInput SurveyForm.initial inputs)) a
    ∧ SurveyForm.rated
        (SurveyForm.qualityR (foldl SurveyForm.onInput SurveyForm.initial inputs)) b.
Proof.
  intros Hall.
  destruct (ratings_from_scale inputs SurveyForm.initial Hall) as [He Hq]; [done|done|].
  eexists _, _. split; [reflexivity|].
  split; by apply orZero_rated.
Qed.

Lemma survey_submits_three_responses_witness :
  ∃ a b,
    SurveyForm.handleSubmit 10 11 12
      (foldl SurveyForm.onInput SurveyForm.initial
         [SurveyForm.PressRating SurveyForm.engagement 2;
          SurveyForm.ChangeText "fine";
          SurveyForm.PressRating SurveyForm.engagement 4])
    = [ {| SurveyForm.questionId := "engagement"; SurveyForm.answer := SurveyForm.Num a;
           SurveyForm.timestamp := 10 |};
        {| SurveyForm.questionId := "quality"; SurveyForm.answer := SurveyForm.Num b;
           SurveyForm.timestamp := 11 |};
        {| SurveyForm.questionId := "feedback";
           SurveyForm.answer := SurveyForm.Text "fine";
           SurveyForm.timestamp := 12 |} ]
    ∧ SurveyForm.rated (Some 4) a
    ∧ SurveyForm.rated None b.
Proof.
  apply (survey_submits_three_responses
           [SurveyForm.PressRating SurveyForm.engagement 2;
            SurveyForm.ChangeText "fine";
            SurveyForm.PressRating SurveyForm.engagement 4] 10 11 12).
  repeat constructor; cbn; unfold SurveyForm.scale;
    rewrite !elem_of_cons; auto 10.
Defined.
